(** * flower.hero: the rose generator, the hero timeline and the RSVP counter

    The page is a React component tree written in TypeScript.  Everything it
    computes is arithmetic on JavaScript numbers: the petal transforms of the
    golden-angle rose, the delays handed to the animation runtime, and the
    guest counter of the RSVP form.

    JavaScript numbers are IEEE-754 binary64 values, while the documentation
    of the page speaks in exact decimal arithmetic.  The source expressions
    are therefore transcribed once, over an interface of number operations,
    and read in two ways:
      - [R]     : exact real arithmetic;
      - [float] : binary64, bit for bit what the engine evaluates.  *)

From Stdlib Require Import Floats ZArith QArith Reals Lra Lia List Bool String.
Import ListNotations.

Set Warnings "-inexact-float".

(** ** JavaScript numbers *)

Module JS.

Declare Scope js_scope.
Delimit Scope js_scope with js.

(** The operations of [number] the page uses. *)
Class Number (N : Type) : Type := {
  lit        : Q -> N;            (* a decimal literal of the source text *)
  of_nat     : nat -> N;          (* an array index or an array length *)
  nadd       : N -> N -> N;
  nsub       : N -> N -> N;
  nmul       : N -> N -> N;
  ndiv       : N -> N -> N;
  nlt        : N -> N -> Prop;
  nle        : N -> N -> Prop;
  Math_sqrt  : N -> N;
  Math_floor : N -> N;
  Math_min   : N -> N -> N;
  Math_max   : N -> N -> N;
  to_int     : N -> option Z      (* [Some z] when the number is the integer z *)
}.

Arguments lit {N _} q%_Q.

(** [Math.PI], [Math.cos] and [Math.sin].  The language standard leaves the
    last two implementation-approximated, so binary64 has no instance of this
    class: statements about binary64 take one as a parameter. *)
Class Trig (N : Type) : Type := {
  Math_PI  : N;
  Math_cos : N -> N;
  Math_sin : N -> N
}.

Infix "+" := nadd : js_scope.
Infix "-" := nsub : js_scope.
Infix "*" := nmul : js_scope.
Infix "/" := ndiv : js_scope.
Infix "<" := nlt : js_scope.
Infix "<=" := nle : js_scope.

(** [xs[k]]: the element when [k] is an integer inside the array, and
    [undefined] otherwise. *)
Definition get {N} `{Number N} {A : Type} (xs : list A) (k : N) : option A :=
  match to_int k with
  | Some z =>
      if ((0 <=? z) && (z <? Z.of_nat (List.length xs)))%Z
      then nth_error xs (Z.to_nat z)
      else None
  | None => None
  end.

(** *** Exact arithmetic *)

Definition R_to_int (x : R) : option Z :=
  if Req_dec_T x (IZR (Int_part x)) then Some (Int_part x) else None.

#[export] Instance Exact : Number R := {|
  lit        := Q2R;
  of_nat     := INR;
  nadd       := Rplus;
  nsub       := Rminus;
  nmul       := Rmult;
  ndiv       := Rdiv;
  nlt        := Rlt;
  nle        := Rle;
  Math_sqrt  := sqrt;
  Math_floor := fun x => IZR (Int_part x);
  Math_min   := Rmin;
  Math_max   := Rmax;
  to_int     := R_to_int
|}.

#[export] Instance ExactTrig : Trig R := {|
  Math_PI  := PI;
  Math_cos := cos;
  Math_sin := sin
|}.

(** *** binary64 *)

(** An integer as a double; exact below 2^53 in magnitude. *)
Definition Z2F (z : Z) : float :=
  match z with
  | Z0 => PrimFloat.zero
  | Zpos _ => PrimFloat.of_uint63 (Uint63.of_Z z)
  | Zneg p => PrimFloat.opp (PrimFloat.of_uint63 (Uint63.of_Z (Zpos p)))
  end.

(** A decimal literal denotes the double nearest to its value.  Numerator
    and denominator of the literals of the page are below 2^53, so both
    convert exactly and the correctly rounded quotient is that double. *)
Definition F_lit (q : Q) : float :=
  PrimFloat.div (Z2F (Qnum q)) (Z2F (Zpos (Qden q))).

(** [Math.floor]: NaN, the infinities and the zeros are returned as they
    are; a finite [(-1)^s * m * 2^e] with [e >= 0] is an integer already; the
    others are rounded towards minus infinity. *)
Definition F_floor (x : float) : float :=
  match Prim2SF x with
  | S754_finite s m e =>
      if (0 <=? e)%Z then x
      else Z2F ((if s then Zneg m else Zpos m) / 2 ^ (- e))%Z
  | _ => x
  end.

Definition is_neg_zero (x : float) : bool :=
  PrimFloat.is_zero x && PrimFloat.get_sign x.

(** [Math.min] and [Math.max]: NaN when an argument is NaN, and -0 is
    below +0. *)
Definition F_min (a b : float) : float :=
  if PrimFloat.is_nan a || PrimFloat.is_nan b then PrimFloat.nan
  else if PrimFloat.ltb a b then a
  else if PrimFloat.ltb b a then b
  else if is_neg_zero a then a else b.

Definition F_max (a b : float) : float :=
  if PrimFloat.is_nan a || PrimFloat.is_nan b then PrimFloat.nan
  else if PrimFloat.ltb a b then b
  else if PrimFloat.ltb b a then a
  else if is_neg_zero a then b else a.

Definition F_to_int (x : float) : option Z :=
  match Prim2SF x with
  | S754_zero _ => Some 0%Z
  | S754_finite s m e =>
      let n := if s then Zneg m else Zpos m in
      if (0 <=? e)%Z then Some (n * 2 ^ e)%Z
      else if (n mod 2 ^ (- e) =? 0)%Z then Some (n / 2 ^ (- e))%Z
      else None
  | _ => None
  end.

#[export] Instance Binary64 : Number float := {|
  lit        := F_lit;
  of_nat     := fun n => Z2F (Z.of_nat n);
  nadd       := PrimFloat.add;
  nsub       := PrimFloat.sub;
  nmul       := PrimFloat.mul;
  ndiv       := PrimFloat.div;
  nlt        := fun a b => PrimFloat.ltb a b = true;
  nle        := fun a b => PrimFloat.leb a b = true;
  Math_sqrt  := PrimFloat.sqrt;
  Math_floor := F_floor;
  Math_min   := F_min;
  Math_max   := F_max;
  to_int     := F_to_int
|}.

End JS.

Import JS.


(** ** What a component hands to the renderer

    Only the numbers and the colours are kept; class names, stroke widths
    and the other styling attributes play no part in what follows. *)

Module Motion.

Inductive Ease (N : Type) : Type :=
| DefaultEase
| Named (name : string)
| Bezier (a b c d : N).
Arguments DefaultEase {N}.
Arguments Named {N} name.
Arguments Bezier {N} a b c d.

(** The [transition] prop of a [motion] element. *)
Record Transition (N : Type) : Type := {
  duration : N;
  delay    : N;
  ease     : Ease N
}.
Arguments duration {N} _.
Arguments delay {N} _.
Arguments ease {N} _.

(** One petal: the [<g transform="translate(px,py) rotate(r) scale(s)">]
    and the [<motion.path fill=... transition=...>] inside it. *)
Record Petal (N : Type) : Type := {
  translate  : N * N;
  rotate     : N;
  scale      : N;
  fill       : option string;
  transition : Transition N
}.
Arguments translate {N} _.
Arguments rotate {N} _.
Arguments scale {N} _.
Arguments fill {N} _.
Arguments transition {N} _.

(** One petal of the static icon: a plain [<path>], no transition. *)
Record IconPetal (N : Type) : Type := {
  icon_translate : N * N;
  icon_rotate    : N;
  icon_scale     : N;
  icon_fill      : option string
}.
Arguments icon_translate {N} _.
Arguments icon_rotate {N} _.
Arguments icon_scale {N} _.
Arguments icon_fill {N} _.

(** [Array.from({ length: n }, (_, i) => f i)] *)
Definition Array_from {A : Type} (n : nat) (f : nat -> A) : list A :=
  List.map f (List.seq 0 n).

(** The time window [delay, delay + duration) over which the animation
    runtime interpolates an element. *)
Definition window {N} `{Number N} (t : Transition N) : N * N :=
  (delay t, (delay t + duration t)%js).

End Motion.

Import Motion.

(** ** src/unnamed/part_000: the hero whose stems grow out of the title *)

Module Hero.

Section Components.
Context {N : Type} `{Number N}.
Local Open Scope js_scope.

Definition GOLDEN_ANGLE : N := lit 137.508.
Definition NUM_PETALS : nat := 24.

Definition ROSE_COLORS : list string :=
  [ "#6a1530"; "#7a1e3a"; "#8e2845"; "#a83458"; "#c04668";
    "#d46080"; "#e07898"; "#ec98b0"; "#f4b0c4" ]%string.

(** *** SvgRose: the locals of the petal callback, as functions of [i] *)

Definition angle (i : nat) : N := of_nat i * GOLDEN_ANGLE.

Definition rad `{Trig N} (i : nat) : N := (angle i * Math_PI) / lit 180.

Definition dist (i : nat) : N := Math_sqrt (of_nat i) * lit 5.5.

Definition px `{Trig N} (i : nat) : N := Math_cos (rad i) * dist i.

Definition py `{Trig N} (i : nat) : N := Math_sin (rad i) * dist i.

Definition petalScale (i : nat) : N :=
  lit 0.35 + (of_nat i / of_nat NUM_PETALS) * lit 0.75.

Definition ci (i : nat) : N :=
  Math_min
    (Math_floor ((of_nat i / of_nat NUM_PETALS) * of_nat (List.length ROSE_COLORS)))
    (of_nat (List.length ROSE_COLORS) - lit 1).

Definition SvgRose_petal `{Trig N} (delay : N) (i : nat) : Petal N :=
  {| translate  := (px i, py i);
     rotate     := angle i + lit 90;
     scale      := petalScale i;
     fill       := get ROSE_COLORS (ci i);
     transition := {| duration := lit 0.55;
                      delay    := delay + of_nat i * lit 0.04;
                      ease     := Bezier (lit 0.22) (lit 1.15) (lit 0.36) (lit 1) |} |}.

Record SvgRoseElement : Type := {
  rose_scale  : N;                 (* the outer [scale(size)] *)
  rose_petals : list (Petal N);
  rose_center : Transition N       (* the centre circle *)
}.

Definition SvgRose `{Trig N} (delay size : N) : SvgRoseElement :=
  {| rose_scale  := size;
     rose_petals := Array_from NUM_PETALS (SvgRose_petal delay);
     rose_center := {| duration := lit 0.25; delay := delay; ease := DefaultEase |} |}.

(** *** SmallRoseIcon *)

Definition icon_a (i : nat) : N := of_nat i * GOLDEN_ANGLE.

Definition icon_r `{Trig N} (i : nat) : N := (icon_a i * Math_PI) / lit 180.

Definition icon_d (i : nat) : N := Math_sqrt (of_nat i) * lit 4.

Definition icon_s (i : nat) : N := lit 0.4 + (of_nat i / lit 12) * lit 0.6.

Definition icon_ci (i : nat) : N :=
  Math_min
    (Math_floor ((of_nat i / lit 12) * of_nat (List.length ROSE_COLORS)))
    (of_nat (List.length ROSE_COLORS) - lit 1).

Definition SmallRoseIcon_petal `{Trig N} (i : nat) : IconPetal N :=
  {| icon_translate := (lit 25 + Math_cos (icon_r i) * icon_d i,
                        lit 25 + Math_sin (icon_r i) * icon_d i);
     icon_rotate    := icon_a i + lit 90;
     icon_scale     := icon_s i * lit 0.45;
     icon_fill      := get ROSE_COLORS (icon_ci i) |}.

Definition SmallRoseIcon `{Trig N} : list (IconPetal N) :=
  Array_from 12 SmallRoseIcon_petal.

(** *** The branch tables *)

Record RoseBranch : Type := {
  cx : N; cy : N;         (* control point of the stem *)
  ex : N; ey : N;         (* where the rose sits *)
  size : N;
  branch_delay : N
}.

Definition LEFT : list RoseBranch :=
  [ {| cx := lit 70;  cy := lit 100; ex := lit 40;  ey := lit 15;  size := lit 1.2;  branch_delay := lit 2.3 |};
    {| cx := lit 60;  cy := lit 145; ex := lit 20;  ey := lit 95;  size := lit 0.9;  branch_delay := lit 2.6 |};
    {| cx := lit 100; cy := lit 140; ex := lit 80;  ey := lit 95;  size := lit 0.65; branch_delay := lit 2.5 |};
    {| cx := lit 120; cy := lit 152; ex := lit 105; ey := lit 135; size := lit 0.4;  branch_delay := lit 2.2 |} ].

Definition RIGHT : list RoseBranch :=
  [ {| cx := lit 930; cy := lit 100; ex := lit 960; ey := lit 15;  size := lit 1.2;  branch_delay := lit 2.3 |};
    {| cx := lit 940; cy := lit 145; ex := lit 980; ey := lit 95;  size := lit 0.9;  branch_delay := lit 2.6 |};
    {| cx := lit 900; cy := lit 140; ex := lit 920; ey := lit 95;  size := lit 0.65; branch_delay := lit 2.5 |};
    {| cx := lit 880; cy := lit 152; ex := lit 895; ey := lit 135; size := lit 0.4;  branch_delay := lit 2.2 |} ].

(** The roses [Home] mounts: one per branch, at the branch's delay. *)
Definition Home_roses `{Trig N} : list SvgRoseElement :=
  List.map (fun b => SvgRose (branch_delay b) (size b)) (LEFT ++ RIGHT).

(** *** Home: the stems *)

Definition M_TAIL : N * N := (lit 132, lit 158).
Definition I_TAIL : N * N := (lit 862, lit 148).

(** What [Home] renders for one branch: the stem, a [motion.path] with
    [d = "M tail Q control end"], and the rose in a group translated to the
    end point. *)
Record BranchElement : Type := {
  stem_from       : N * N;
  stem_control    : N * N;
  stem_to         : N * N;
  stem_transition : Transition N;
  rose_translate  : N * N;
  branch_rose     : SvgRoseElement
}.

(** The callback of [LEFT.map] with [tail = M_TAIL], and of [RIGHT.map]
    with [tail = I_TAIL]. *)
Definition branch `{Trig N} (tail : N * N) (b : RoseBranch) : BranchElement :=
  {| stem_from       := tail;
     stem_control    := (cx b, cy b);
     stem_to         := (ex b, ey b);
     stem_transition := {| duration := lit 0.9;
                           delay    := branch_delay b - lit 0.3;
                           ease     := Named "easeOut" |};
     rose_translate  := (ex b, ey b);
     branch_rose     := SvgRose (branch_delay b) (size b) |}.

Definition Home_branches `{Trig N} : list BranchElement :=
  List.map (branch M_TAIL) LEFT ++ List.map (branch I_TAIL) RIGHT.

(** *** Home: the leaves *)

Record LeafSpec : Type := {
  leaf_x : N; leaf_y : N;
  leaf_r : N;             (* rotation *)
  leaf_s : N;             (* scale *)
  leaf_d : N              (* delay *)
}.

Definition LEAVES : list LeafSpec :=
  [ {| leaf_x := lit 75;  leaf_y := lit 75;  leaf_r := lit (-40); leaf_s := lit 1.1; leaf_d := lit 2.5 |};
    {| leaf_x := lit 50;  leaf_y := lit 120; leaf_r := lit (-60); leaf_s := lit 0.9; leaf_d := lit 2.7 |};
    {| leaf_x := lit 95;  leaf_y := lit 115; leaf_r := lit (-25); leaf_s := lit 0.8; leaf_d := lit 2.4 |};
    {| leaf_x := lit 925; leaf_y := lit 75;  leaf_r := lit 40;    leaf_s := lit 1.1; leaf_d := lit 2.5 |};
    {| leaf_x := lit 950; leaf_y := lit 120; leaf_r := lit 60;    leaf_s := lit 0.9; leaf_d := lit 2.7 |};
    {| leaf_x := lit 905; leaf_y := lit 115; leaf_r := lit 25;    leaf_s := lit 0.8; leaf_d := lit 2.4 |} ].

(** One leaf: the blade, a [motion.path], and its vein, a [motion.line],
    in a group with the leaf's transform. *)
Record LeafElement : Type := {
  leaf_translate : N * N;
  leaf_rotate    : N;
  leaf_scale     : N;
  leaf_blade     : Transition N;
  leaf_vein      : Transition N
}.

(** The callback of [LEAVES.map]. *)
Definition leaf (l : LeafSpec) : LeafElement :=
  {| leaf_translate := (leaf_x l, leaf_y l);
     leaf_rotate    := leaf_r l;
     leaf_scale     := leaf_s l;
     leaf_blade     := {| duration := lit 0.4; delay := leaf_d l;
                          ease := DefaultEase |};
     leaf_vein      := {| duration := lit 0.3; delay := leaf_d l + lit 0.1;
                          ease := DefaultEase |} |}.

Definition Home_leaves : list LeafElement := List.map leaf LEAVES.

End Components.

End Hero.

(** ** src/unnamed/part_001: the five-section page with the RSVP form *)

Module Page.

Section Components.
Context {N : Type} `{Number N}.
Local Open Scope js_scope.

Definition GOLDEN_ANGLE : N := lit 137.508.
Definition NUM_PETALS : nat := 24.

Definition ROSE_COLORS : list string :=
  [ "#6a1530"; "#7a1e3a"; "#8e2845"; "#a83458"; "#c04668";
    "#d46080"; "#e07898"; "#ec98b0"; "#f4b0c4" ]%string.

(** *** Rose: the locals of the petal callback, as functions of [i] *)

Definition angle (i : nat) : N := of_nat i * GOLDEN_ANGLE.

Definition rad `{Trig N} (i : nat) : N := (angle i * Math_PI) / lit 180.

Definition dist (i : nat) : N := Math_sqrt (of_nat i) * lit 5.5.

Definition px `{Trig N} (i : nat) : N := Math_cos (rad i) * dist i.

Definition py `{Trig N} (i : nat) : N := Math_sin (rad i) * dist i.

Definition petalScale (i : nat) : N :=
  lit 0.35 + (of_nat i / of_nat NUM_PETALS) * lit 0.75.

Definition ci (i : nat) : N :=
  Math_min
    (Math_floor ((of_nat i / of_nat NUM_PETALS) * of_nat (List.length ROSE_COLORS)))
    (of_nat (List.length ROSE_COLORS) - lit 1).

Definition Rose_petal `{Trig N} (delay : N) (i : nat) : Petal N :=
  {| translate  := (px i, py i);
     rotate     := angle i + lit 90;
     scale      := petalScale i;
     fill       := get ROSE_COLORS (ci i);
     transition := {| duration := lit 0.55;
                      delay    := delay + of_nat i * lit 0.04;
                      ease     := Bezier (lit 0.22) (lit 1.15) (lit 0.36) (lit 1) |} |}.

(** The pixel dimension [Math.round(50 * size)] of the [<svg>] is layout
    only; the record keeps [size] itself. *)
Record RoseElement : Type := {
  rose_size    : N;
  rose_wrapper : Transition N;     (* the [motion.div] around the [<svg>] *)
  rose_petals  : list (Petal N);
  rose_center  : Transition N      (* the centre circle *)
}.

Definition Rose `{Trig N} (delay size : N) : RoseElement :=
  {| rose_size    := size;
     rose_wrapper := {| duration := lit 0.5; delay := delay;
                        ease := Bezier (lit 0.22) (lit 1.15) (lit 0.36) (lit 1) |};
     rose_petals  := Array_from NUM_PETALS (Rose_petal delay);
     rose_center  := {| duration := lit 0.25; delay := delay; ease := DefaultEase |} |}.

(** *** Leaf *)

Record LeafElement : Type := {
  leaf_wrapper : Transition N;
  leaf_rotate  : N;
  leaf_scale   : N
}.

Definition Leaf (delay rotate scale : N) : LeafElement :=
  {| leaf_wrapper := {| duration := lit 0.4; delay := delay; ease := DefaultEase |};
     leaf_rotate  := rotate;
     leaf_scale   := scale |}.

(** *** SmallRoseIcon *)

Definition icon_a (i : nat) : N := of_nat i * GOLDEN_ANGLE.

Definition icon_r `{Trig N} (i : nat) : N := (icon_a i * Math_PI) / lit 180.

Definition icon_d (i : nat) : N := Math_sqrt (of_nat i) * lit 4.

Definition icon_s (i : nat) : N := lit 0.4 + (of_nat i / lit 12) * lit 0.6.

Definition icon_ci (i : nat) : N :=
  Math_min
    (Math_floor ((of_nat i / lit 12) * of_nat (List.length ROSE_COLORS)))
    (of_nat (List.length ROSE_COLORS) - lit 1).

Definition SmallRoseIcon_petal `{Trig N} (i : nat) : IconPetal N :=
  {| icon_translate := (lit 25 + Math_cos (icon_r i) * icon_d i,
                        lit 25 + Math_sin (icon_r i) * icon_d i);
     icon_rotate    := icon_a i + lit 90;
     icon_scale     := icon_s i * lit 0.45;
     icon_fill      := get ROSE_COLORS (icon_ci i) |}.

Definition SmallRoseIcon `{Trig N} : list (IconPetal N) :=
  Array_from 12 SmallRoseIcon_petal.

(** *** RoseCluster: the roses and leaves on each side of the title *)

Definition baseDelay : N := lit 2.2.

Inductive ClusterChild : Type :=
| ALeaf (l : LeafElement)
| ARose (r : RoseElement).

(** [mirror] only flips the cluster horizontally. *)
Definition RoseCluster `{Trig N} (mirror : bool) : list ClusterChild :=
  [ ALeaf (Leaf (baseDelay + lit 0.3) (lit (-40)) (lit 1.1));
    ARose (Rose (baseDelay + lit 0.1) (lit 1.2));
    ALeaf (Leaf (baseDelay + lit 0.2) (lit 30) (lit 0.9));
    ALeaf (Leaf (baseDelay + lit 0.5) (lit (-55)) (lit 0.8));
    ARose (Rose (baseDelay + lit 0.3) (lit 0.9));
    ARose (Rose (baseDelay + lit 0.4) (lit 0.65));
    ALeaf (Leaf (baseDelay + lit 0.4) (lit 45) (lit 0.7));
    ARose (Rose baseDelay (lit 0.4)) ].

Definition cluster_roses (cs : list ClusterChild) : list RoseElement :=
  List.flat_map (fun c => match c with ARose r => [r] | ALeaf _ => [] end) cs.

(** *** Home, section 1: the transitions of the hero *)

Definition title_stroke : Transition N :=
  {| duration := lit 2; delay := lit 0.3;
     ease := Bezier (lit 0.25) (lit 0.1) (lit 0.25) (lit 1) |}.

Definition title_fill : Transition N :=
  {| duration := lit 0.8; delay := lit 1.8; ease := Named "easeIn" |}.

Definition separator_large : Transition N :=
  {| duration := lit 0.8; delay := lit 2.3; ease := DefaultEase |}.

Definition location_text : Transition N :=
  {| duration := lit 0.8; delay := lit 2.5; ease := Named "easeOut" |}.

Definition separator_small : Transition N :=
  {| duration := lit 0.8; delay := lit 2.8; ease := DefaultEase |}.

Definition date_text : Transition N :=
  {| duration := lit 1; delay := lit 3.0; ease := Named "easeIn" |}.

(** The roses [Home] mounts: those of the left cluster and of its mirror
    image on the right, in document order. *)
Definition Home_roses `{Trig N} : list RoseElement :=
  cluster_roses (RoseCluster false) ++ cluster_roses (RoseCluster true).

Definition side_roses `{Trig N} : list (Transition N) :=
  List.map rose_wrapper Home_roses.

(** *** Home, section 5: the RSVP form

    [guests] is the only state the component owns.  The rest of the record
    is the part of the browser a handler could act on: the flag of the
    event being dispatched, the requests sent and the entries stored. *)

Record World : Type := {
  guests           : N;
  defaultPrevented : bool;
  requests         : list string;
  stored           : list (string * string)
}.

(** [useState(2)] on a freshly loaded page. *)
Definition mount : World :=
  {| guests := lit 2; defaultPrevented := false; requests := []; stored := [] |}.

Definition setGuests (f : N -> N) (w : World) : World :=
  {| guests := f (guests w);
     defaultPrevented := defaultPrevented w;
     requests := requests w;
     stored := stored w |}.

Definition preventDefault (w : World) : World :=
  {| guests := guests w;
     defaultPrevented := true;
     requests := requests w;
     stored := stored w |}.

Definition onClick_minus : World -> World :=
  setGuests (fun g => Math_max (lit 1) (g - lit 1)).

Definition onClick_plus : World -> World :=
  setGuests (fun g => Math_min (lit 10) (g + lit 1)).

Definition onSubmit : World -> World := preventDefault.

Inductive UIEvent : Type := ClickMinus | ClickPlus | Submit.

Definition fresh_event (w : World) : World :=
  {| guests := guests w;
     defaultPrevented := false;
     requests := requests w;
     stored := stored w |}.

(** Dispatch of one event: the handler runs on a fresh event.  Both buttons
    of the counter are [type="button"] and have no default action; a submit
    event nobody cancelled is followed by the browser's own submission of
    the form, [browser_submit], which the page does not define. *)
Definition dispatch (browser_submit : World -> World)
    (ev : UIEvent) (w : World) : World :=
  match ev with
  | ClickMinus => onClick_minus (fresh_event w)
  | ClickPlus  => onClick_plus (fresh_event w)
  | Submit     =>
      let w' := onSubmit (fresh_event w) in
      if defaultPrevented w' then w' else browser_submit w'
  end.

Definition run (browser_submit : World -> World)
    (evs : list UIEvent) (w : World) : World :=
  List.fold_left (fun w ev => dispatch browser_submit ev w) evs w.

(** *** Home, section 4: the programme of the day *)

Record TimelineItem : Type := {
  time  : string;
  title : string;
  desc  : string
}.

Definition programme : list TimelineItem :=
  [ {| time := "11:00"; title := "Cununie Civila";        desc := "Primaria Timisoara" |};
    {| time := "13:00"; title := "Cununie Religioasa";    desc := "Catedrala Mitropolitana" |};
    {| time := "16:00"; title := "Sedinta foto";          desc := "Parcul Rozelor" |};
    {| time := "18:00"; title := "Cocktail de bun venit"; desc := "Sala de evenimente" |};
    {| time := "19:00"; title := "Petrecere & Cina";      desc := "Sala de evenimente" |};
    {| time := "00:00"; title := "Tortul miresei";        desc := EmptyString |} ]%string.

(** One row of the programme: the time, the rose dot with, unless
    [i < arr.length - 1] fails, the line down to the next dot, the title,
    and the description when [item.desc] is truthy, that is, not empty. *)
Record TimelineRow : Type := {
  row_time      : string;
  row_connector : bool;
  row_title     : string;
  row_desc      : option string
}.

(** The callback [(item, i, arr) => ...]. *)
Definition timeline_row (item : TimelineItem) (i : nat)
    (arr : list TimelineItem) : TimelineRow :=
  {| row_time      := time item;
     row_connector := (Z.of_nat i <? Z.of_nat (List.length arr) - 1)%Z;
     row_title     := title item;
     row_desc      := match desc item with
                      | EmptyString => None
                      | d => Some d
                      end |}.

(** [arr.map(f)]: [f] receives the element, its index and the array. *)
Fixpoint map_from {A B : Type} (f : A -> nat -> B) (k : nat) (xs : list A) : list B :=
  match xs with
  | [] => []
  | x :: rest => f x k :: map_from f (S k) rest
  end.

Definition Array_map {A B : Type} (f : A -> nat -> list A -> B) (arr : list A) : list B :=
  map_from (fun x i => f x i arr) 0 arr.

Definition Timeline (items : list TimelineItem) : list TimelineRow :=
  Array_map timeline_row items.

End Components.

End Page.

(** * The vocabulary of the statements *)

(** ** The guest counter *)

Definition counter_in_range {N} `{Number N} (g : N) : Prop :=
  (lit 1 <= g)%js /\ (g <= lit 10)%js.

(** The ten doubles the counter can hold. *)
Definition counter_values : list float := List.map of_nat (seq 1 10).

(** ** The colour index *)

(** What is asked of a colour index [ci] for [n] petals over [palette], at
    two indices [i <= j]: it is the clamped floor, it does not decrease, it
    stays below the palette size, and the palette has a colour there. *)
Definition monotone_and_valid {N} `{Number N}
    (n : N) (palette : list string) (ci : nat -> N) (i j : nat) : Prop :=
  ci j = (Math_min (Math_floor ((of_nat j / n) * of_nat (List.length palette)))
                   (of_nat (List.length palette) - lit 1))%js /\
  (ci i <= ci j)%js /\
  (ci j < of_nat (List.length palette))%js /\
  exists colour, get palette (ci j) = Some colour.

(** What it means for the clamp to be idle at [i]: the floor alone is at
    most 8, the clamped index is that floor, and the palette has a colour at
    the floor. *)
Definition clamp_idle {N} `{Number N}
    (n : N) (palette : list string) (ci : nat -> N) (i : nat) : Prop :=
  let raw := Math_floor ((of_nat i / n) * of_nat (List.length palette))%js in
  (raw <= lit 8)%js /\ ci i = raw /\ exists colour, get palette raw = Some colour.

(** ** The order of the reveal *)


(** A sequence of doubles, checked to be strictly increasing below [n] by
    comparing every pair. *)
Definition increasing_below (f : nat -> float) (n : nat) : bool :=
  forallb (fun i =>
    forallb (fun j => implb (i <? j)%nat (PrimFloat.ltb (f i) (f j))) (seq 0 n))
    (seq 0 n).

(** ** The small rose icon, as documented *)

(** The scale the documentation gives the petals of the small icon: the
    formula of the large rose, with 12 petals for 24. *)
Definition documented_icon_scale {N} `{Number N} (i : nat) : N :=
  (lit 0.35 + (of_nat i / lit 12) * lit 0.75)%js.

(** ** The hero timeline, as documented and as coded *)

(** The steps of the reveal, as the documentation lists them. *)
Inductive HeroStep : Type :=
| TitleStroke | TitleFill | SideRoses | Separators | LocationText | DateText.

(** The transitions [Home] of part_001 gives the elements of each step. *)
Definition step_transitions {N} `{Number N} `{Trig N}
    (s : HeroStep) : list (Transition N) :=
  match s with
  | TitleStroke  => [Page.title_stroke]
  | TitleFill    => [Page.title_fill]
  | SideRoses    => Page.side_roses
  | Separators   => [Page.separator_large; Page.separator_small]
  | LocationText => [Page.location_text]
  | DateText     => [Page.date_text]
  end.

(** The window the documentation gives each step, in seconds. *)
Definition documented_window (s : HeroStep) : R * R :=
  match s with
  | TitleStroke  => (0.3, 2.3)
  | TitleFill    => (1.8, 2.6)
  | SideRoses    => (2.2, 3.1)
  | Separators   => (2.3, 2.8)
  | LocationText => (2.5, 3.3)
  | DateText     => (3.0, 4.0)
  end%R.

(** The elements [ts] animate over [w]: one of them starts at its left
    end, one of them finishes at its right end, and the window of each lies
    inside it.  For a single element this is [window t = w]. *)
Definition spans {N} `{Number N} (ts : list (Transition N)) (w : N * N) : Prop :=
  Exists (fun t => fst (window t) = fst w) ts /\
  Exists (fun t => snd (window t) = snd w) ts /\
  Forall (fun t => (fst w <= fst (window t))%js /\ (snd (window t) <= snd w)%js) ts.

(** The windows the code gives the steps: the documented ones, except that
    the separators take until 3.6 s. *)
Definition coded_window (s : HeroStep) : R * R :=
  match s with
  | Separators => (2.3, 3.6)%R
  | _ => documented_window s
  end.

(** ** Further vocabulary *)

(** The clicks among the events. *)
Definition is_click (ev : Page.UIEvent) : bool :=
  match ev with
  | Page.Submit => false
  | _ => true
  end.

(** Everything a rendered rose animates: the centre circle and the petals,
    and for the standalone rose of part_001 the wrapper around them. *)
Definition SvgRose_transitions {N} (r : Hero.SvgRoseElement (N:=N)) : list (Transition N) :=
  Hero.rose_center r :: List.map transition (Hero.rose_petals r).

Definition Rose_transitions {N} (r : Page.RoseElement (N:=N)) : list (Transition N) :=
  Page.rose_wrapper r :: Page.rose_center r
    :: List.map transition (Page.rose_petals r).

(** Two rotations, in degrees, that differ by whole turns. *)
Definition same_direction (a b : R) : Prop :=
  exists m : Z, (a - b = 360 * IZR m)%R.

(** The value of a finite double, as a fraction: a double is
    [(-1)^s * m * 2^e]. *)
Definition F_value (x : float) : option Q :=
  match Prim2SF x with
  | S754_zero _ => Some 0%Q
  | S754_finite s m e =>
      let n := if s then Zneg m else Zpos m in
      Some (if (0 <=? e)%Z then inject_Z (n * 2 ^ e)
            else n # Z.to_pos (2 ^ (- e)))
  | _ => None
  end.

(** Two rotations held in doubles, whose values differ by whole turns. *)
Definition same_direction_binary64 (a b : float) : Prop :=
  exists (qa qb : Q) (m : Z),
    F_value a = Some qa /\ F_value b = Some qb /\
    (qa - qb == 360 * inject_Z m)%Q.

(** The same, decided: the difference of the two fractions is a multiple
    of 360. *)
Definition whole_turns_apart (a b : float) : bool :=
  match F_value a, F_value b with
  | Some qa, Some qb =>
      let q := (qa - qb)%Q in
      (Qnum q mod (360 * Zpos (Qden q)) =? 0)%Z
  | _, _ => false
  end.

(** No two of the doubles [f 0], ..., [f (n - 1)] are whole turns apart,
    and each of them is finite. *)
Definition directions_distinct_below (f : nat -> float) (n : nat) : bool :=
  forallb (fun i =>
    match F_value (f i) with Some _ => true | None => false end &&
    forallb (fun j => (i =? j)%nat || negb (whole_turns_apart (f i) (f j)))
            (seq 0 n))
    (seq 0 n).

(** ** Tactics *)

(** A goal about an index [i] with [Hi : i < n], for a literal [n], is
    settled by running the generator at 0, 1, ..., n - 1. *)
Ltac run_below i Hi :=
  repeat (destruct i as [|i];
          [ solve [vm_compute; repeat split; reflexivity]
          | try solve [exfalso; clear - Hi; lia] ]).

(** * Properties *)

(** ** Literals *)

(** The decimal literals of the page, read as doubles through [lit], are the
    doubles the parser of floating-point literals gives them. *)
Lemma binary64_literals :
  lit (N:=float) 137.508 = 137.508%float /\
  lit (N:=float) 5.5 = 5.5%float /\
  lit (N:=float) 0.35 = 0.35%float /\
  lit (N:=float) 0.75 = 0.75%float /\
  lit (N:=float) 0.04 = 0.04%float /\
  lit (N:=float) 0.55 = 0.55%float /\
  lit (N:=float) 0.4 = 0.4%float /\
  lit (N:=float) 0.6 = 0.6%float /\
  lit (N:=float) 0.45 = 0.45%float /\
  lit (N:=float) 2.2 = 2.2%float /\
  lit (N:=float) (-40) = (-40)%float.
Proof. repeat split; vm_compute; reflexivity. Qed.

(** ** The guest counter *)

Section GuestCounter.
Import Page.

(** *** Exact arithmetic *)

Lemma exact_dispatch_in_range (s : World -> World) (ev : UIEvent) (w : World (N:=R)) :
  counter_in_range (guests w) -> counter_in_range (guests (dispatch s ev w)).
Proof.
  unfold counter_in_range. cbn. intros [Hlo Hhi].
  destruct ev; cbn.
  - split.
    + apply Rmax_l.
    + apply Rmax_lub; lra.
  - split.
    + apply Rmin_glb; lra.
    + apply Rmin_l.
  - lra.
Qed.

Lemma exact_run_in_range (s : World -> World) (evs : list UIEvent) :
  forall w : World (N:=R),
    counter_in_range (guests w) -> counter_in_range (guests (run s evs w)).
Proof.
  induction evs as [|ev evs IH]; intros w Hw.
  - exact Hw.
  - apply IH, exact_dispatch_in_range, Hw.
Qed.

(** *** binary64: the counter only ever holds one of ten doubles *)

Lemma binary64_dispatch_value (s : World -> World) (ev : UIEvent) (w : World (N:=float)) :
  In (guests w) counter_values -> In (guests (dispatch s ev w)) counter_values.
Proof.
  intros Hin.
  destruct ev; cbn [dispatch onSubmit preventDefault fresh_event defaultPrevented guests];
    try exact Hin;
    unfold onClick_minus, onClick_plus, setGuests; cbn [guests fresh_event];
    unfold counter_values in Hin; cbn [List.map seq] in Hin;
    repeat (destruct Hin as [<- | Hin]; [vm_compute; tauto | ]);
    destruct Hin.
Qed.

Lemma binary64_run_value (s : World -> World) (evs : list UIEvent) :
  forall w : World (N:=float),
    In (guests w) counter_values -> In (guests (run s evs w)) counter_values.
Proof.
  induction evs as [|ev evs IH]; intros w Hw.
  - exact Hw.
  - apply IH, binary64_dispatch_value, Hw.
Qed.

Lemma counter_values_in_range (g : float) :
  In g counter_values -> counter_in_range g.
Proof.
  unfold counter_values; cbn [List.map seq]; intros Hin.
  repeat (destruct Hin as [<- | Hin]; [vm_compute; split; reflexivity | ]).
  destruct Hin.
Qed.

End GuestCounter.

(** C1.  The guest counter starts at 2; a click on the minus button turns
    the count [g] into [max(1, g - 1)] and a click on the plus button into
    [min(10, g + 1)]; after every finite sequence of events (clicks on either
    button, and submissions of the form as well) the counter lies in
    [1, 10]; the minus button leaves a counter of 1 at 1 and the plus button
    leaves a counter of 10 at 10.  This holds in exact arithmetic and for the
    doubles the engine computes. *)
Theorem guest_counter_clamped
    (sR : Page.World (N:=R) -> Page.World)
    (sF : Page.World (N:=float) -> Page.World)
    (evs : list Page.UIEvent) :
  (* exact arithmetic *)
  ( Page.guests (Page.mount (N:=R)) = 2%R /\
    (forall w, Page.guests (Page.dispatch sR Page.ClickMinus w)
               = Rmax 1 (Page.guests w - 1)) /\
    (forall w, Page.guests (Page.dispatch sR Page.ClickPlus w)
               = Rmin 10 (Page.guests w + 1)) /\
    (1 <= Page.guests (Page.run sR evs Page.mount) <= 10)%R /\
    (forall w, Page.guests (Page.dispatch sR Page.ClickMinus
                              (Page.setGuests (fun _ => 1%R) w)) = 1%R) /\
    (forall w, Page.guests (Page.dispatch sR Page.ClickPlus
                              (Page.setGuests (fun _ => 10%R) w)) = 10%R) ) /\
  (* binary64 *)
  ( Page.guests (Page.mount (N:=float)) = 2%float /\
    (forall w, Page.guests (Page.dispatch sF Page.ClickMinus w)
               = F_max 1 (Page.guests w - 1)%float) /\
    (forall w, Page.guests (Page.dispatch sF Page.ClickPlus w)
               = F_min 10 (Page.guests w + 1)%float) /\
    (1 <=? Page.guests (Page.run sF evs Page.mount))%float = true /\
    (Page.guests (Page.run sF evs Page.mount) <=? 10)%float = true /\
    (forall w, Page.guests (Page.dispatch sF Page.ClickMinus
                              (Page.setGuests (fun _ => 1%float) w)) = 1%float) /\
    (forall w, Page.guests (Page.dispatch sF Page.ClickPlus
                              (Page.setGuests (fun _ => 10%float) w)) = 10%float) ).
Proof.
  split.
  - assert (Hrun : counter_in_range (Page.guests (Page.run sR evs Page.mount))).
    { apply exact_run_in_range. unfold counter_in_range. cbn. lra. }
    unfold counter_in_range in Hrun. cbn in Hrun.
    repeat split.
    + cbn. lra.
    + intros w. cbn. f_equal; lra.
    + intros w. cbn. f_equal; lra.
    + lra.
    + lra.
    + intros w. cbn. rewrite Rmax_left; lra.
    + intros w. cbn. rewrite Rmin_left; lra.
  - assert (Hrun : counter_in_range (Page.guests (Page.run sF evs Page.mount))).
    { apply counter_values_in_range, binary64_run_value.
      vm_compute. tauto. }
    destruct Hrun as [Hlo Hhi].
    repeat split; try reflexivity.
    + exact Hlo.
    + exact Hhi.
Qed.

(** ** The submit handler *)

Section Submit.
Import Page.
Context {N : Type} `{Number N}.

(** No handler of the form touches the requests or the store, and no
    submission ever reaches the browser's own submit action. *)
Lemma dispatch_frame (s : World -> World) (ev : UIEvent) (w : World) :
  requests (dispatch s ev w) = requests w /\
  stored (dispatch s ev w) = stored w.
Proof. destruct ev; split; reflexivity. Qed.

Lemma run_frame (s : World -> World) (evs : list UIEvent) :
  forall w, requests (run s evs w) = requests w /\
            stored (run s evs w) = stored w.
Proof.
  induction evs as [|ev evs IH]; intros w.
  - split; reflexivity.
  - destruct (IH (dispatch s ev w)) as [Hr Hs].
    destruct (dispatch_frame s ev w) as [Hr' Hs'].
    cbn [run fold_left] in *. unfold run in Hr, Hs.
    rewrite Hr, Hs. split; assumption.
Qed.

End Submit.

(** C5.  Submitting the RSVP form is intercepted and discarded: the handler
    does nothing but cancel the default action, so whatever the browser's
    own submission would do never happens; the guest counter, the requests
    sent and the entries stored are left as they were, and from the freshly
    mounted page no sequence of events sends or stores anything. *)
Theorem submit_is_discarded {N : Type} `{Number N}
    (browser_submit : Page.World -> Page.World)
    (w : Page.World) (evs : list Page.UIEvent) :
  Page.onSubmit w = Page.preventDefault w /\
  Page.dispatch browser_submit Page.Submit w
    = Page.preventDefault (Page.fresh_event w) /\
  Page.defaultPrevented (Page.dispatch browser_submit Page.Submit w) = true /\
  Page.guests (Page.dispatch browser_submit Page.Submit w) = Page.guests w /\
  Page.requests (Page.dispatch browser_submit Page.Submit w) = Page.requests w /\
  Page.stored (Page.dispatch browser_submit Page.Submit w) = Page.stored w /\
  Page.requests (Page.run browser_submit evs Page.mount) = [] /\
  Page.stored (Page.run browser_submit evs Page.mount) = [].
Proof.
  destruct (run_frame browser_submit evs Page.mount) as [Hr Hs].
  repeat split; try reflexivity; assumption.
Qed.

(** ** The rose generator: exact arithmetic *)

Section ExactTools.
Local Open Scope R_scope.

Lemma Int_part_IZR (z : Z) : Int_part (IZR z) = z.
Proof. symmetry. apply Int_part_spec. lra. Qed.

Lemma R_to_int_IZR (z : Z) : R_to_int (IZR z) = Some z.
Proof.
  unfold R_to_int. rewrite Int_part_IZR.
  destruct (Req_dec_T (IZR z) (IZR z)) as [_ | Hne]; [reflexivity | now elim Hne].
Qed.

(** The floor of a quotient of integers is the integer quotient. *)
Lemma Int_part_quotient (a n : Z) (x : R) :
  (0 < n)%Z -> x = IZR a / IZR n -> Int_part x = (a / n)%Z.
Proof.
  intros Hn ->. symmetry. apply Int_part_spec.
  pose proof (Z.div_mod a n ltac:(lia)) as Hdm.
  pose proof (Z.mod_pos_bound a n Hn) as [Hm0 Hm1].
  assert (Hn' : 0 < IZR n) by (apply IZR_lt; assumption).
  assert (Ha : IZR a = IZR n * IZR (a / n) + IZR (a mod n)).
  { rewrite <- mult_IZR, <- plus_IZR. f_equal. exact Hdm. }
  apply IZR_le in Hm0. apply IZR_lt in Hm1.
  replace (IZR a / IZR n) with (IZR (a / n) + IZR (a mod n) / IZR n)
    by (rewrite Ha; field; lra).
  assert (0 <= IZR (a mod n) / IZR n < 1).
  { split.
    - apply Rmult_le_pos; [lra | apply Rlt_le, Rinv_0_lt_compat, Hn'].
    - apply Rmult_lt_reg_r with (IZR n); [exact Hn' |].
      unfold Rdiv. rewrite Rmult_assoc, Rinv_l by lra. lra. }
  lra.
Qed.

Lemma sqrt_between (a b x : R) :
  0 <= a -> 0 <= b -> a * a < x < b * b -> a < sqrt x < b.
Proof.
  intros Ha Hb [Hax Hxb].
  split.
  - rewrite <- (sqrt_square a Ha). apply sqrt_lt_1; nra.
  - rewrite <- (sqrt_square b Hb). apply sqrt_lt_1; nra.
Qed.

End ExactTools.

Section ExactRose.
Local Open Scope R_scope.

(** In exact arithmetic [Math.floor((i / n) * 9)] is the integer quotient
    [i * 9 / n], and below [n] petals the clamp at 8 does nothing. *)
Lemma exact_floor_index (n i : nat) (x : R) :
  (0 < n)%nat -> x = INR i / INR n * 9 ->
  IZR (Int_part x) = INR (i * 9 / n).
Proof.
  intros Hn ->.
  rewrite (Int_part_quotient (Z.of_nat i * 9) (Z.of_nat n)).
  - rewrite INR_IZR_INZ, Nat2Z.inj_div, Nat2Z.inj_mul. reflexivity.
  - lia.
  - rewrite mult_IZR, <- !INR_IZR_INZ.
    assert (INR n <> 0) by (apply not_0_INR; lia).
    field. assumption.
Qed.

Lemma index_below_palette (n i : nat) : (i < n)%nat -> (i * 9 / n < 9)%nat.
Proof. intros Hi. apply Nat.Div0.div_lt_upper_bound. lia. Qed.

Lemma index_monotone (n i j : nat) : (i <= j)%nat -> (i * 9 / n <= j * 9 / n)%nat.
Proof. intros Hij. apply Nat.Div0.div_le_mono. lia. Qed.

Lemma exact_clamped_floor (n i : nat) (x : R) :
  (0 < n)%nat -> (i < n)%nat -> x = INR i / INR n * 9 ->
  Rmin (IZR (Int_part x)) (INR 9 - Q2R 1) = INR (i * 9 / n).
Proof.
  intros Hn Hi Hx.
  rewrite (exact_floor_index n i x Hn Hx).
  replace (INR 9 - Q2R 1) with (INR 8) by (cbn; lra).
  apply Rmin_left, le_INR.
  pose proof (index_below_palette n i Hi). lia.
Qed.

Lemma Hero_exact_ci (i : nat) :
  (i < 24)%nat -> Hero.ci (N:=R) i = INR (i * 9 / 24).
Proof.
  intros Hi. apply (exact_clamped_floor 24); [lia | exact Hi | cbn; lra].
Qed.

Lemma Page_exact_ci (i : nat) :
  (i < 24)%nat -> Page.ci (N:=R) i = INR (i * 9 / 24).
Proof.
  intros Hi. apply (exact_clamped_floor 24); [lia | exact Hi | cbn; lra].
Qed.

Lemma Hero_exact_icon_ci (i : nat) :
  (i < 12)%nat -> Hero.icon_ci (N:=R) i = INR (i * 9 / 12).
Proof.
  intros Hi. apply (exact_clamped_floor 12); [lia | exact Hi | cbn; lra].
Qed.

Lemma Page_exact_icon_ci (i : nat) :
  (i < 12)%nat -> Page.icon_ci (N:=R) i = INR (i * 9 / 12).
Proof.
  intros Hi. apply (exact_clamped_floor 12); [lia | exact Hi | cbn; lra].
Qed.

(** Reading the palette at an integer index. *)
Lemma exact_get_INR {A : Type} (xs : list A) (k : nat) :
  get (N:=R) xs (INR k) = nth_error xs k.
Proof.
  unfold get. cbn [to_int Exact].
  rewrite INR_IZR_INZ, R_to_int_IZR.
  destruct (Z.ltb_spec (Z.of_nat k) (Z.of_nat (List.length xs))) as [Hlt | Hge].
  - replace (0 <=? Z.of_nat k)%Z with true by (symmetry; apply Z.leb_le; lia).
    cbn. rewrite Nat2Z.id. reflexivity.
  - rewrite andb_false_r. symmetry. apply nth_error_None. lia.
Qed.

End ExactRose.

(** ** The rose generator: binary64 *)

Section Binary64Rose.

(** The doubles round the same way as the integers: also in binary64
    [Math.floor((i / n) * 9)] is [i * 9 / n], clamp included. *)
Lemma Hero_binary64_ci (i : nat) :
  (i < 24)%nat -> Hero.ci (N:=float) i = of_nat (i * 9 / 24).
Proof. intros Hi. run_below i Hi. Qed.

Lemma Page_binary64_ci (i : nat) :
  (i < 24)%nat -> Page.ci (N:=float) i = of_nat (i * 9 / 24).
Proof. intros Hi. run_below i Hi. Qed.

Lemma Hero_binary64_icon_ci (i : nat) :
  (i < 12)%nat -> Hero.icon_ci (N:=float) i = of_nat (i * 9 / 12).
Proof. intros Hi. run_below i Hi. Qed.

Lemma Page_binary64_icon_ci (i : nat) :
  (i < 12)%nat -> Page.icon_ci (N:=float) i = of_nat (i * 9 / 12).
Proof. intros Hi. run_below i Hi. Qed.

Lemma binary64_to_int_small (k : nat) :
  (k < 9)%nat -> to_int (N:=float) (of_nat k) = Some (Z.of_nat k).
Proof. intros Hk. run_below k Hk. Qed.

Lemma binary64_get_small {A : Type} (xs : list A) (k : nat) :
  (k < 9)%nat -> get (N:=float) xs (of_nat k) = nth_error xs k.
Proof.
  intros Hk. unfold get. rewrite binary64_to_int_small by exact Hk.
  destruct (Z.ltb_spec (Z.of_nat k) (Z.of_nat (List.length xs))) as [Hlt | Hge].
  - replace (0 <=? Z.of_nat k)%Z with true by (symmetry; apply Z.leb_le; lia).
    cbn. rewrite Nat2Z.id. reflexivity.
  - rewrite andb_false_r. symmetry. apply nth_error_None. lia.
Qed.

Lemma binary64_le_small (a b : nat) :
  (a <= b)%nat -> (b < 9)%nat -> (of_nat (N:=float) a <= of_nat b)%js.
Proof.
  intros Hab Hb.
  assert (Ha : (a < 9)%nat) by lia.
  repeat (destruct b as [|b];
          [ clear Hb;
            repeat (destruct a as [|a];
                    [ first [ solve [vm_compute; reflexivity]
                            | exfalso; clear - Hab; lia ]
                    | try solve [exfalso; clear - Ha; lia] ])
          | try solve [exfalso; clear - Hb; lia] ]).
Qed.

Lemma binary64_lt_palette (k : nat) :
  (k < 9)%nat -> (of_nat (N:=float) k < of_nat 9)%js.
Proof. intros Hk. run_below k Hk. Qed.

End Binary64Rose.

(** ** The colour index *)

Section ColourIndex.

Lemma palette_has_colour (palette : list string) (k : nat) :
  (k < List.length palette)%nat -> exists colour, nth_error palette k = Some colour.
Proof.
  intros Hk. destruct (nth_error palette k) as [c|] eqn:E.
  - exists c. reflexivity.
  - apply nth_error_None in E. lia.
Qed.

(** Whatever agrees with the integer quotient is monotone and valid. *)
Lemma exact_quotient_monotone_and_valid
    (n : nat) (palette : list string) (ci : nat -> R) (i j : nat) :
  List.length palette = 9%nat ->
  (forall k, (k < n)%nat -> ci k = INR (k * 9 / n)) ->
  (i <= j)%nat -> (j < n)%nat ->
  (ci i <= ci j)%js /\
  (ci j < of_nat (List.length palette))%js /\
  exists colour, get palette (ci j) = Some colour.
Proof.
  intros Hlen Hci Hij Hj.
  rewrite (Hci i) by lia. rewrite (Hci j) by lia. rewrite Hlen.
  pose proof (index_below_palette n j Hj) as Hb.
  split; [| split].
  - apply le_INR, index_monotone, Hij.
  - apply lt_INR, Hb.
  - rewrite exact_get_INR. apply palette_has_colour. lia.
Qed.

Lemma binary64_quotient_monotone_and_valid
    (n : nat) (palette : list string) (ci : nat -> float) (i j : nat) :
  List.length palette = 9%nat ->
  (forall k, (k < n)%nat -> ci k = of_nat (k * 9 / n)) ->
  (i <= j)%nat -> (j < n)%nat ->
  (ci i <= ci j)%js /\
  (ci j < of_nat (List.length palette))%js /\
  exists colour, get palette (ci j) = Some colour.
Proof.
  intros Hlen Hci Hij Hj.
  rewrite (Hci i) by lia. rewrite (Hci j) by lia. rewrite Hlen.
  pose proof (index_below_palette n j Hj) as Hb.
  split; [| split].
  - apply binary64_le_small; [apply index_monotone, Hij | exact Hb].
  - apply binary64_lt_palette, Hb.
  - rewrite binary64_get_small by exact Hb. apply palette_has_colour. lia.
Qed.

End ColourIndex.

(** C3.  For petal indices [i <= j] below the petal count 24 of the large
    rose, in either copy of the generator, the colour index is
    [min(floor((i / 24) * 9), 9 - 1)], it does not decrease from [i] to [j],
    and it is below the palette size 9, so that the palette has a colour at
    it.  This holds in exact arithmetic and for the doubles the engine
    computes. *)
Theorem color_index_monotone_and_valid (i j : nat) :
  (i <= j)%nat -> (j < 24)%nat ->
  monotone_and_valid (N:=R) (of_nat Hero.NUM_PETALS) Hero.ROSE_COLORS Hero.ci i j /\
  monotone_and_valid (N:=R) (of_nat Page.NUM_PETALS) Page.ROSE_COLORS Page.ci i j /\
  monotone_and_valid (N:=float) (of_nat Hero.NUM_PETALS) Hero.ROSE_COLORS Hero.ci i j /\
  monotone_and_valid (N:=float) (of_nat Page.NUM_PETALS) Page.ROSE_COLORS Page.ci i j.
Proof.
  intros Hij Hj. unfold monotone_and_valid.
  repeat split; try reflexivity.
  all: first
    [ apply (exact_quotient_monotone_and_valid 24 Hero.ROSE_COLORS Hero.ci i j
               eq_refl Hero_exact_ci Hij Hj)
    | apply (exact_quotient_monotone_and_valid 24 Page.ROSE_COLORS Page.ci i j
               eq_refl Page_exact_ci Hij Hj)
    | apply (binary64_quotient_monotone_and_valid 24 Hero.ROSE_COLORS Hero.ci i j
               eq_refl Hero_binary64_ci Hij Hj)
    | apply (binary64_quotient_monotone_and_valid 24 Page.ROSE_COLORS Page.ci i j
               eq_refl Page_binary64_ci Hij Hj) ].
Qed.

Lemma color_index_monotone_and_valid_witness :
  (7 <= 8)%nat /\ (8 < 24)%nat /\
  monotone_and_valid (N:=R) (of_nat Hero.NUM_PETALS) Hero.ROSE_COLORS Hero.ci 7 8 /\
  monotone_and_valid (N:=R) (of_nat Page.NUM_PETALS) Page.ROSE_COLORS Page.ci 7 8 /\
  monotone_and_valid (N:=float) (of_nat Hero.NUM_PETALS) Hero.ROSE_COLORS Hero.ci 7 8 /\
  monotone_and_valid (N:=float) (of_nat Page.NUM_PETALS) Page.ROSE_COLORS Page.ci 7 8.
Proof.
  assert (H1 : (7 <= 8)%nat) by lia.
  assert (H2 : (8 < 24)%nat) by lia.
  split; [exact H1 | split; [exact H2 |]].
  exact (color_index_monotone_and_valid 7 8 H1 H2).
Defined.

(** ** The clamp of the colour index *)

Section Clamp.

Lemma exact_quotient_clamp_idle
    (n : nat) (x : R) (palette : list string) (ci : nat -> R) (i : nat) :
  List.length palette = 9%nat -> x = INR n ->
  (forall k, (k < n)%nat -> ci k = INR (k * 9 / n)) ->
  (i < n)%nat ->
  clamp_idle x palette ci i.
Proof.
  intros Hlen -> Hci Hi. unfold clamp_idle.
  cbn [Math_floor Exact nmul ndiv nle of_nat lit]. rewrite Hlen.
  rewrite (exact_floor_index n i) by (try lia; cbn; lra).
  pose proof (index_below_palette n i Hi) as Hb.
  split; [| split].
  - replace (Q2R 8) with (INR 8) by (cbn; lra). apply le_INR. lia.
  - apply Hci, Hi.
  - rewrite exact_get_INR. apply palette_has_colour. lia.
Qed.

Lemma binary64_quotient_clamp_idle
    (n : nat) (x : float) (palette : list string) (ci : nat -> float) (i : nat) :
  List.length palette = 9%nat ->
  (forall k, (k < n)%nat ->
     Math_floor ((of_nat k / x) * of_nat 9)%js = of_nat (k * 9 / n)) ->
  (forall k, (k < n)%nat -> ci k = of_nat (k * 9 / n)) ->
  (i < n)%nat ->
  clamp_idle x palette ci i.
Proof.
  intros Hlen Hraw Hci Hi. unfold clamp_idle. rewrite Hlen.
  rewrite (Hraw i Hi), (Hci i Hi).
  pose proof (index_below_palette n i Hi) as Hb.
  split; [| split].
  - change (lit (N:=float) 8) with (of_nat (N:=float) 8).
    apply binary64_le_small; lia.
  - reflexivity.
  - rewrite binary64_get_small by exact Hb. apply palette_has_colour. lia.
Qed.

Lemma binary64_floor_24 (k : nat) :
  (k < 24)%nat ->
  Math_floor ((of_nat (N:=float) k / of_nat 24) * of_nat 9)%js = of_nat (k * 9 / 24).
Proof. intros Hk. run_below k Hk. Qed.

Lemma binary64_floor_12 (k : nat) :
  (k < 12)%nat ->
  Math_floor ((of_nat (N:=float) k / lit 12) * of_nat 9)%js = of_nat (k * 9 / 12).
Proof. intros Hk. run_below k Hk. Qed.

End Clamp.

(** C10.  The clamp of the colour index is never exercised: for every petal
    [i] of the large rose (24 petals, both copies) and every petal [k] of the
    small icon (12 petals, both copies), [floor((i / n) * 9)] is at most 8,
    so the minimum with 9 - 1 returns the floor itself, and the palette has a
    colour at the unclamped floor.  This holds in exact arithmetic and for
    the doubles the engine computes. *)
Theorem color_index_clamp_idle (i k : nat) :
  (i < 24)%nat -> (k < 12)%nat ->
  ( clamp_idle (N:=R) (of_nat Hero.NUM_PETALS) Hero.ROSE_COLORS Hero.ci i /\
    clamp_idle (N:=R) (of_nat Page.NUM_PETALS) Page.ROSE_COLORS Page.ci i /\
    clamp_idle (N:=R) (lit 12) Hero.ROSE_COLORS Hero.icon_ci k /\
    clamp_idle (N:=R) (lit 12) Page.ROSE_COLORS Page.icon_ci k ) /\
  ( clamp_idle (N:=float) (of_nat Hero.NUM_PETALS) Hero.ROSE_COLORS Hero.ci i /\
    clamp_idle (N:=float) (of_nat Page.NUM_PETALS) Page.ROSE_COLORS Page.ci i /\
    clamp_idle (N:=float) (lit 12) Hero.ROSE_COLORS Hero.icon_ci k /\
    clamp_idle (N:=float) (lit 12) Page.ROSE_COLORS Page.icon_ci k ).
Proof.
  intros Hi Hk. split; (split; [| split; [| split]]).
  - apply (exact_quotient_clamp_idle 24); auto using Hero_exact_ci.
  - apply (exact_quotient_clamp_idle 24); auto using Page_exact_ci.
  - apply (exact_quotient_clamp_idle 12); auto using Hero_exact_icon_ci.
    cbn; lra.
  - apply (exact_quotient_clamp_idle 12); auto using Page_exact_icon_ci.
    cbn; lra.
  - apply (binary64_quotient_clamp_idle 24);
      auto using Hero_binary64_ci, binary64_floor_24.
  - apply (binary64_quotient_clamp_idle 24);
      auto using Page_binary64_ci, binary64_floor_24.
  - apply (binary64_quotient_clamp_idle 12);
      auto using Hero_binary64_icon_ci, binary64_floor_12.
  - apply (binary64_quotient_clamp_idle 12);
      auto using Page_binary64_icon_ci, binary64_floor_12.
Qed.

Lemma color_index_clamp_idle_witness :
  (23 < 24)%nat /\ (11 < 12)%nat /\
  ( clamp_idle (N:=R) (of_nat Hero.NUM_PETALS) Hero.ROSE_COLORS Hero.ci 23 /\
    clamp_idle (N:=R) (of_nat Page.NUM_PETALS) Page.ROSE_COLORS Page.ci 23 /\
    clamp_idle (N:=R) (lit 12) Hero.ROSE_COLORS Hero.icon_ci 11 /\
    clamp_idle (N:=R) (lit 12) Page.ROSE_COLORS Page.icon_ci 11 ) /\
  ( clamp_idle (N:=float) (of_nat Hero.NUM_PETALS) Hero.ROSE_COLORS Hero.ci 23 /\
    clamp_idle (N:=float) (of_nat Page.NUM_PETALS) Page.ROSE_COLORS Page.ci 23 /\
    clamp_idle (N:=float) (lit 12) Hero.ROSE_COLORS Hero.icon_ci 11 /\
    clamp_idle (N:=float) (lit 12) Page.ROSE_COLORS Page.icon_ci 11 ).
Proof.
  assert (H1 : (23 < 24)%nat) by lia.
  assert (H2 : (11 < 12)%nat) by lia.
  split; [exact H1 | split; [exact H2 |]].
  exact (color_index_clamp_idle 23 11 H1 H2).
Defined.

(** ** Single petals *)

(** C2.  Large rose, petal count 24 and golden angle 137.508: the petal at
    index 5 has angle [5 * 137.508 = 687.54], radial distance
    [sqrt 5 * 5.5], which is 12.298 to three decimals, and colour index
    [floor((5 / 24) * 9) = 1].  In binary64 the product [5 * 137.508] is the
    double next above the double of 687.54 (it prints as 687.5400000000001),
    the distance is 12.298373876248844 and the colour index is 1. *)
Theorem petal_five :
  (* exact arithmetic, both copies of the generator *)
  ( Hero.NUM_PETALS = 24%nat /\ Hero.GOLDEN_ANGLE (N:=R) = 137.508%R /\
    Hero.angle (N:=R) 5 = (5 * 137.508)%R /\ Hero.angle (N:=R) 5 = 687.54%R /\
    Hero.dist (N:=R) 5 = (sqrt 5 * 5.5)%R /\
    (Rabs (Hero.dist (N:=R) 5 - 12.298) < 0.0005)%R /\
    Hero.ci (N:=R) 5 = IZR (Int_part (5 / 24 * 9)) /\ Hero.ci (N:=R) 5 = 1%R ) /\
  ( Page.NUM_PETALS = 24%nat /\ Page.GOLDEN_ANGLE (N:=R) = 137.508%R /\
    Page.angle (N:=R) 5 = (5 * 137.508)%R /\ Page.angle (N:=R) 5 = 687.54%R /\
    Page.dist (N:=R) 5 = (sqrt 5 * 5.5)%R /\
    (Rabs (Page.dist (N:=R) 5 - 12.298) < 0.0005)%R /\
    Page.ci (N:=R) 5 = IZR (Int_part (5 / 24 * 9)) /\ Page.ci (N:=R) 5 = 1%R ) /\
  (* binary64, both copies of the generator *)
  ( Hero.GOLDEN_ANGLE (N:=float) = 137.508%float /\
    Hero.angle (N:=float) 5 = (5 * 137.508)%float /\
    Hero.angle (N:=float) 5 = 687.5400000000001%float /\
    Hero.angle (N:=float) 5 = PrimFloat.next_up 687.54%float /\
    Hero.dist (N:=float) 5 = (PrimFloat.sqrt 5 * 5.5)%float /\
    Hero.dist (N:=float) 5 = 12.298373876248844%float /\
    (PrimFloat.abs (Hero.dist (N:=float) 5 - 12.298) <? 0.0005)%float = true /\
    Hero.ci (N:=float) 5 = 1%float ) /\
  ( Page.GOLDEN_ANGLE (N:=float) = 137.508%float /\
    Page.angle (N:=float) 5 = (5 * 137.508)%float /\
    Page.angle (N:=float) 5 = 687.5400000000001%float /\
    Page.angle (N:=float) 5 = PrimFloat.next_up 687.54%float /\
    Page.dist (N:=float) 5 = (PrimFloat.sqrt 5 * 5.5)%float /\
    Page.dist (N:=float) 5 = 12.298373876248844%float /\
    (PrimFloat.abs (Page.dist (N:=float) 5 - 12.298) <? 0.0005)%float = true /\
    Page.ci (N:=float) 5 = 1%float ).
Proof.
  assert (Hsqrt : (2.23606 < sqrt 5 < 2.23607)%R) by (apply sqrt_between; lra).
  assert (Hfloor : IZR (Int_part (5 / 24 * 9)) = 1%R).
  { f_equal. symmetry. apply Int_part_spec. lra. }
  assert (Hdist : (Rabs (sqrt 5 * 5.5 - 12.298) < 0.0005)%R).
  { apply Rabs_def1; lra. }
  split; [| split; [| split]].
  - assert (Hd : Hero.dist (N:=R) 5 = (sqrt 5 * 5.5)%R).
    { unfold Hero.dist. cbn. do 2 f_equal. lra. }
    repeat split; try solve [cbn; lra].
    + exact Hd.
    + rewrite Hd. exact Hdist.
    + rewrite Hfloor. rewrite Hero_exact_ci by lia. cbn. lra.
    + rewrite Hero_exact_ci by lia. cbn. lra.
  - assert (Hd : Page.dist (N:=R) 5 = (sqrt 5 * 5.5)%R).
    { unfold Page.dist. cbn. do 2 f_equal. lra. }
    repeat split; try solve [cbn; lra].
    + exact Hd.
    + rewrite Hd. exact Hdist.
    + rewrite Hfloor. rewrite Page_exact_ci by lia. cbn. lra.
    + rewrite Page_exact_ci by lia. cbn. lra.
  - repeat split; vm_compute; reflexivity.
  - repeat split; vm_compute; reflexivity.
Qed.

(** C8.  Boundary values of the large rose (24 petals, both copies): the
    first petal sits exactly at the centre, [dist 0 = sqrt 0 * 5.5 = 0]; its
    scale is [petalScale 0 = 0.35]; and the scale of the last petal,
    [petalScale 23 = 0.35 + 0.75 * 23 / 24], is strictly below 1.1.  This
    holds in exact arithmetic and for the doubles the engine computes. *)
Theorem petal_boundaries :
  (* exact arithmetic *)
  ( Hero.dist (N:=R) 0 = (sqrt 0 * 5.5)%R /\ Hero.dist (N:=R) 0 = 0%R /\
    Hero.petalScale (N:=R) 0 = 0.35%R /\
    Hero.petalScale (N:=R) 23 = (0.35 + 0.75 * 23 / 24)%R /\
    (Hero.petalScale (N:=R) 23 < 1.1)%R ) /\
  ( Page.dist (N:=R) 0 = (sqrt 0 * 5.5)%R /\ Page.dist (N:=R) 0 = 0%R /\
    Page.petalScale (N:=R) 0 = 0.35%R /\
    Page.petalScale (N:=R) 23 = (0.35 + 0.75 * 23 / 24)%R /\
    (Page.petalScale (N:=R) 23 < 1.1)%R ) /\
  (* binary64 *)
  ( Hero.dist (N:=float) 0 = (PrimFloat.sqrt 0 * 5.5)%float /\
    Hero.dist (N:=float) 0 = 0%float /\
    Hero.petalScale (N:=float) 0 = 0.35%float /\
    Hero.petalScale (N:=float) 23 = (0.35 + 0.75 * 23 / 24)%float /\
    (Hero.petalScale (N:=float) 23 <? 1.1)%float = true ) /\
  ( Page.dist (N:=float) 0 = (PrimFloat.sqrt 0 * 5.5)%float /\
    Page.dist (N:=float) 0 = 0%float /\
    Page.petalScale (N:=float) 0 = 0.35%float /\
    Page.petalScale (N:=float) 23 = (0.35 + 0.75 * 23 / 24)%float /\
    (Page.petalScale (N:=float) 23 <? 1.1)%float = true ).
Proof.
  split; [| split; [| split]].
  - assert (Hd : Hero.dist (N:=R) 0 = (sqrt 0 * 5.5)%R).
    { unfold Hero.dist. cbn. f_equal; lra. }
    repeat split; try solve [cbn; lra].
    rewrite Hd, sqrt_0. lra.
  - assert (Hd : Page.dist (N:=R) 0 = (sqrt 0 * 5.5)%R).
    { unfold Page.dist. cbn. f_equal; lra. }
    repeat split; try solve [cbn; lra].
    rewrite Hd, sqrt_0. lra.
  - repeat split; vm_compute; reflexivity.
  - repeat split; vm_compute; reflexivity.
Qed.

(** ** The order of the reveal *)

Section Reveal.

Lemma nth_error_Array_from {A : Type} (n : nat) (f : nat -> A) (i : nat) :
  (i < n)%nat -> nth_error (Array_from n f) i = Some (f i).
Proof.
  intros Hi. unfold Array_from.
  rewrite nth_error_map.
  rewrite (nth_error_nth' (seq 0 n) 0%nat) by (rewrite length_seq; exact Hi).
  rewrite seq_nth by exact Hi. reflexivity.
Qed.


Lemma increasing_below_sound (f : nat -> float) (n : nat) :
  increasing_below f n = true ->
  forall i j, (i < j)%nat -> (j < n)%nat -> PrimFloat.ltb (f i) (f j) = true.
Proof.
  intros Hall i j Hij Hj. unfold increasing_below in Hall.
  rewrite forallb_forall in Hall.
  specialize (Hall i ltac:(apply in_seq; lia)).
  rewrite forallb_forall in Hall.
  specialize (Hall j ltac:(apply in_seq; lia)).
  apply Nat.ltb_lt in Hij. rewrite Hij in Hall. exact Hall.
Qed.


End Reveal.



(** ** The two copies of the large rose *)

(** C9.  [SvgRose] of part_000 and [Rose] of part_001 compute the same
    petal for every index and every delay, whatever the arithmetic: the same
    angle [i * 137.508], radial distance [sqrt i * 5.5], scale
    [0.35 + (i / 24) * 0.75], colour index, rotation [angle + 90] and reveal
    delay [delay + i * 0.04]; so the 24 petals they render are the same. *)
Theorem rose_copies_agree {N : Type} `{Number N} `{Trig N}
    (d size : N) (i : nat) :
  ( Hero.NUM_PETALS = 24%nat /\ Page.NUM_PETALS = 24%nat /\
    Hero.ROSE_COLORS = Page.ROSE_COLORS ) /\
  ( Hero.angle i = (of_nat i * lit 137.508)%js /\
    Page.angle i = (of_nat i * lit 137.508)%js ) /\
  ( Hero.dist i = (Math_sqrt (of_nat i) * lit 5.5)%js /\
    Page.dist i = (Math_sqrt (of_nat i) * lit 5.5)%js ) /\
  ( Hero.petalScale i = (lit 0.35 + (of_nat i / of_nat 24) * lit 0.75)%js /\
    Page.petalScale i = (lit 0.35 + (of_nat i / of_nat 24) * lit 0.75)%js ) /\
  Hero.ci i = Page.ci i /\
  ( rotate (Hero.SvgRose_petal d i) = (Hero.angle i + lit 90)%js /\
    rotate (Page.Rose_petal d i) = (Page.angle i + lit 90)%js ) /\
  ( delay (transition (Hero.SvgRose_petal d i)) = (d + of_nat i * lit 0.04)%js /\
    delay (transition (Page.Rose_petal d i)) = (d + of_nat i * lit 0.04)%js ) /\
  Hero.SvgRose_petal d i = Page.Rose_petal d i /\
  Hero.rose_petals (Hero.SvgRose d size) = Page.rose_petals (Page.Rose d size) /\
  List.length (Hero.rose_petals (Hero.SvgRose d size)) = 24%nat.
Proof. repeat split; reflexivity. Qed.

(** ** The small rose icon *)

(** C6, as documented, fails at the first petal: the icon scales it by
    [s = 0.4], applied as [0.4 * 0.45 = 0.18], where the documented formula
    gives 0.35.  Both copies of the icon, in exact arithmetic and in
    binary64. *)
Lemma small_icon_scale_counterexample :
  ( Hero.icon_s (N:=R) 0 = 0.4%R /\ Page.icon_s (N:=R) 0 = 0.4%R /\
    icon_scale (Hero.SmallRoseIcon_petal (N:=R) 0) = 0.18%R /\
    icon_scale (Page.SmallRoseIcon_petal (N:=R) 0) = 0.18%R /\
    documented_icon_scale (N:=R) 0 = 0.35%R /\
    Hero.icon_s (N:=R) 0 <> documented_icon_scale 0 /\
    icon_scale (Hero.SmallRoseIcon_petal (N:=R) 0) <> documented_icon_scale 0 ) /\
  ( Hero.icon_s (N:=float) 0 = 0.4%float /\ Page.icon_s (N:=float) 0 = 0.4%float /\
    documented_icon_scale (N:=float) 0 = 0.35%float /\
    (Hero.icon_s (N:=float) 0 =? documented_icon_scale 0)%float = false /\
    forall T : Trig float,
      icon_scale (Hero.SmallRoseIcon_petal (N:=float) 0) = (0.4 * 0.45)%float /\
      icon_scale (Page.SmallRoseIcon_petal (N:=float) 0) = (0.4 * 0.45)%float /\
      (icon_scale (Hero.SmallRoseIcon_petal (N:=float) 0)
         =? documented_icon_scale 0)%float = false ).
Proof.
  split.
  - repeat split; try solve [cbn; lra].
  - repeat split; vm_compute; reflexivity.
Qed.

Section SmallIcon.
Local Open Scope R_scope.

Lemma exact_icon_s (i : nat) :
  Hero.icon_s (N:=R) i = 0.4 + (INR i / 12) * 0.6 /\
  Page.icon_s (N:=R) i = 0.4 + (INR i / 12) * 0.6.
Proof. split; cbn; lra. Qed.

Lemma exact_icon_meets_documented (i : nat) :
  0.4 + (INR i / 12) * 0.6 = documented_icon_scale (N:=R) i <-> i = 4%nat.
Proof.
  unfold documented_icon_scale. cbn.
  split.
  - intros Heq. apply INR_eq. cbn. lra.
  - intros ->. cbn. lra.
Qed.

Lemma binary64_icon_meets_documented (i : nat) :
  (i < 12)%nat ->
  PrimFloat.eqb (Hero.icon_s (N:=float) i) (documented_icon_scale i) = (i =? 4)%nat /\
  PrimFloat.eqb (Page.icon_s (N:=float) i) (documented_icon_scale i) = (i =? 4)%nat.
Proof. intros Hi. run_below i Hi. Qed.

End SmallIcon.

(** C6, amended.  The small icon has 12 petals and constants of its own:
    for every index [i] below 12 the petal scale is
    [s = 0.4 + (i / 12) * 0.6], which lies in [0.4, 1) and is applied in the
    transform as [s * 0.45]; the radial distance is [sqrt i * 4]; the angle
    is [i * 137.508] as in the large rose.  [s] meets the formula of the
    large rose, [0.35 + (i / 12) * 0.75], at [i = 4] only, and the applied
    scale never does.  The colour index is the floor of [(i / 12) * 9],
    which is the integer quotient [i * 9 / 12]. *)
Theorem small_icon_scale (i : nat) :
  (i < 12)%nat ->
  (* exact arithmetic *)
  ( Hero.icon_s (N:=R) i = (0.4 + (INR i / 12) * 0.6)%R /\
    Page.icon_s (N:=R) i = (0.4 + (INR i / 12) * 0.6)%R /\
    (0.4 <= Hero.icon_s (N:=R) i < 1)%R /\
    icon_scale (Hero.SmallRoseIcon_petal (N:=R) i) = (Hero.icon_s i * 0.45)%R /\
    icon_scale (Page.SmallRoseIcon_petal (N:=R) i) = (Page.icon_s i * 0.45)%R /\
    Hero.icon_d (N:=R) i = (sqrt (INR i) * 4)%R /\
    Page.icon_d (N:=R) i = (sqrt (INR i) * 4)%R /\
    Hero.icon_a (N:=R) i = (INR i * 137.508)%R /\
    Page.icon_a (N:=R) i = (INR i * 137.508)%R /\
    (Hero.icon_s (N:=R) i = documented_icon_scale i <-> i = 4%nat) /\
    (Page.icon_s (N:=R) i = documented_icon_scale i <-> i = 4%nat) /\
    (icon_scale (Hero.SmallRoseIcon_petal (N:=R) i) < documented_icon_scale i)%R /\
    Hero.icon_ci (N:=R) i = INR (i * 9 / 12) /\
    Page.icon_ci (N:=R) i = INR (i * 9 / 12) /\
    List.length (Hero.SmallRoseIcon (N:=R)) = 12%nat /\
    List.length (Page.SmallRoseIcon (N:=R)) = 12%nat /\
    nth_error (Hero.SmallRoseIcon (N:=R)) i = Some (Hero.SmallRoseIcon_petal i) /\
    nth_error (Page.SmallRoseIcon (N:=R)) i = Some (Page.SmallRoseIcon_petal i) ) /\
  (* binary64 *)
  ( Hero.icon_s (N:=float) i = (0.4 + (of_nat i / 12) * 0.6)%float /\
    Page.icon_s (N:=float) i = (0.4 + (of_nat i / 12) * 0.6)%float /\
    Hero.icon_d (N:=float) i = (PrimFloat.sqrt (of_nat i) * 4)%float /\
    Page.icon_d (N:=float) i = (PrimFloat.sqrt (of_nat i) * 4)%float /\
    (Hero.icon_s (N:=float) i =? documented_icon_scale i)%float = (i =? 4)%nat /\
    (Page.icon_s (N:=float) i =? documented_icon_scale i)%float = (i =? 4)%nat /\
    Hero.icon_ci (N:=float) i = of_nat (i * 9 / 12) /\
    Page.icon_ci (N:=float) i = of_nat (i * 9 / 12) /\
    forall T : Trig float,
      icon_scale (Hero.SmallRoseIcon_petal (N:=float) i)
        = (Hero.icon_s i * 0.45)%float /\
      icon_scale (Page.SmallRoseIcon_petal (N:=float) i)
        = (Page.icon_s i * 0.45)%float /\
      nth_error (Hero.SmallRoseIcon (N:=float)) i = Some (Hero.SmallRoseIcon_petal i) /\
      nth_error (Page.SmallRoseIcon (N:=float)) i = Some (Page.SmallRoseIcon_petal i) ).
Proof.
  intros Hi.
  destruct (exact_icon_s i) as [HsH HsP].
  pose proof (pos_INR i) as H0.
  assert (H12 : (INR i <= 11)%R).
  { replace 11%R with (INR 11) by (cbn; lra). apply le_INR. lia. }
  split.
  - split; [exact HsH | split; [exact HsP |]].
    split; [rewrite HsH; lra |].
    split; [cbn; lra |]. split; [cbn; lra |].
    split; [unfold Hero.icon_d; cbn; f_equal; lra |].
    split; [unfold Page.icon_d; cbn; f_equal; lra |].
    split; [cbn; lra |]. split; [cbn; lra |].
    split; [rewrite HsH; apply exact_icon_meets_documented |].
    split; [rewrite HsP; apply exact_icon_meets_documented |].
    split; [unfold documented_icon_scale; cbn; lra |].
    split; [exact (Hero_exact_icon_ci i Hi) |].
    split; [exact (Page_exact_icon_ci i Hi) |].
    split; [reflexivity |]. split; [reflexivity |].
    split; apply nth_error_Array_from; exact Hi.
  - destruct (binary64_icon_meets_documented i Hi) as [HeH HeP].
    split; [vm_compute; reflexivity |]. split; [vm_compute; reflexivity |].
    split; [vm_compute; reflexivity |]. split; [vm_compute; reflexivity |].
    split; [exact HeH |]. split; [exact HeP |].
    split; [exact (Hero_binary64_icon_ci i Hi) |].
    split; [exact (Page_binary64_icon_ci i Hi) |].
    intros T.
    split; [reflexivity |]. split; [reflexivity |].
    split; apply nth_error_Array_from; exact Hi.
Qed.

Lemma small_icon_scale_witness :
  (0 < 12)%nat /\
  Hero.icon_s (N:=R) 0 = (0.4 + (INR 0 / 12) * 0.6)%R /\
  (Hero.icon_s (N:=float) 0 =? documented_icon_scale 0)%float = (0 =? 4)%nat.
Proof.
  assert (H0 : (0 < 12)%nat) by lia.
  pose proof (small_icon_scale 0 H0) as H.
  split; [exact H0 | split]; apply H.
Defined.

(** ** The hero timeline *)

Section Timeline.
Local Open Scope R_scope.

Lemma exact_separator_windows :
  window (Page.separator_large (N:=R)) = (2.3, 3.1) /\
  window (Page.separator_small (N:=R)) = (2.8, 3.6).
Proof. split; unfold window; cbn; f_equal; lra. Qed.

Lemma exact_side_rose_windows :
  List.map window (Page.side_roses (N:=R)) =
  [ (2.3, 2.8); (2.5, 3.0); (2.6, 3.1); (2.2, 2.7);
    (2.3, 2.8); (2.5, 3.0); (2.6, 3.1); (2.2, 2.7) ].
Proof.
  cbn. unfold window. cbn.
  repeat (apply f_equal2; [apply f_equal2; lra |]). reflexivity.
Qed.

Lemma exact_spans_coded (s : HeroStep) :
  spans (step_transitions (N:=R) s) (coded_window s).
Proof.
  unfold spans.
  destruct s; cbn [step_transitions coded_window documented_window fst snd].
  3: { (* the side roses: first to start is the last of the cluster, last
          to finish the third *)
       split; [| split].
       - do 3 apply Exists_cons_tl. apply Exists_cons_hd. cbn. lra.
       - do 2 apply Exists_cons_tl. apply Exists_cons_hd. cbn. lra.
       - repeat apply Forall_cons; try apply Forall_nil; cbn; lra. }
  3: { split; [| split].
       - apply Exists_cons_hd. cbn. lra.
       - apply Exists_cons_tl, Exists_cons_hd. cbn. lra.
       - repeat apply Forall_cons; try apply Forall_nil; cbn; lra. }
  all: split; [| split];
       [ apply Exists_cons_hd; cbn; lra
       | apply Exists_cons_hd; cbn; lra
       | repeat apply Forall_cons; try apply Forall_nil; cbn; lra ].
Qed.

Lemma exact_separators_not_documented :
  ~ spans (step_transitions (N:=R) Separators) (documented_window Separators).
Proof.
  unfold spans. cbn [step_transitions documented_window fst snd].
  intros (_ & Hend & _).
  apply Exists_cons in Hend as [Hend | Hend].
  - cbn in Hend. lra.
  - apply Exists_cons in Hend as [Hend | Hend].
    + cbn in Hend. lra.
    + apply Exists_nil in Hend. exact Hend.
Qed.

End Timeline.

(** C7, as documented, fails at the separators: their transitions have
    delays 2.3 and 2.8 and duration 0.8 each, so they fade over 2.3 s to
    3.1 s and over 2.8 s to 3.6 s; neither of them, nor the two together,
    animates over the documented 2.3 s to 2.8 s. *)
Lemma hero_timeline_counterexample :
  documented_window Separators = (2.3, 2.8)%R /\
  window (Page.separator_large (N:=R)) = (2.3, 3.1)%R /\
  window (Page.separator_small (N:=R)) = (2.8, 3.6)%R /\
  ~ spans (step_transitions (N:=R) Separators) (documented_window Separators) /\
  ~ (forall s, spans (step_transitions (N:=R) s) (documented_window s)).
Proof.
  destruct exact_separator_windows as [Hl Hs].
  split; [reflexivity | split; [exact Hl | split; [exact Hs | split]]].
  - exact exact_separators_not_documented.
  - intros Hall. exact (exact_separators_not_documented (Hall Separators)).
Qed.

(** C7, amended.  The reveal of the hero is fixed by constant delays and
    durations alone: the title stroke draws over 0.3 s to 2.3 s, the fill
    fades in over 1.8 s to 2.6 s, the wrappers of the side roses bloom over
    2.2 s to 3.1 s, the separators fade over 2.3 s to 3.1 s and 2.8 s to
    3.6 s, the location text appears over 2.5 s to 3.3 s and the date text
    over 3.0 s to 4.0 s.  Inside the wrappers the petals go on unfolding, the
    last one until 4.07 s.  The doubles handed to the animation runtime as
    delays are the constants listed. *)
Theorem hero_timeline :
  (* the window of every step, in exact arithmetic *)
  (forall s, spans (step_transitions (N:=R) s) (coded_window s)) /\
  window (Page.title_stroke (N:=R)) = (0.3, 2.3)%R /\
  window (Page.title_fill (N:=R)) = (1.8, 2.6)%R /\
  spans (Page.side_roses (N:=R)) (2.2, 3.1)%R /\
  List.map window (Page.side_roses (N:=R)) =
    [ (2.3, 2.8); (2.5, 3.0); (2.6, 3.1); (2.2, 2.7);
      (2.3, 2.8); (2.5, 3.0); (2.6, 3.1); (2.2, 2.7) ]%R /\
  window (Page.separator_large (N:=R)) = (2.3, 3.1)%R /\
  window (Page.separator_small (N:=R)) = (2.8, 3.6)%R /\
  window (Page.location_text (N:=R)) = (2.5, 3.3)%R /\
  window (Page.date_text (N:=R)) = (3.0, 4.0)%R /\
  window (transition (Page.Rose_petal (N:=R) (Page.baseDelay + lit 0.4)%js 23))
    = (3.52, 4.07)%R /\
  (* the delays as doubles *)
  (forall T : Trig float,
     List.map delay
       [ Page.title_stroke (N:=float); Page.title_fill; Page.separator_large;
         Page.location_text; Page.separator_small; Page.date_text ]
       = [ 0.3; 1.8; 2.3; 2.5; 2.8; 3.0 ]%float /\
     List.map delay (Page.side_roses (N:=float))
       = [ 2.3000000000000003; 2.5; 2.6; 2.2;
           2.3000000000000003; 2.5; 2.6; 2.2 ]%float).
Proof.
  destruct exact_separator_windows as [Hl Hs].
  split; [exact exact_spans_coded |].
  split; [unfold window; cbn; f_equal; lra |].
  split; [unfold window; cbn; f_equal; lra |].
  split; [exact (exact_spans_coded SideRoses) |].
  split; [exact exact_side_rose_windows |].
  split; [exact Hl |]. split; [exact Hs |].
  split; [unfold window; cbn; f_equal; lra |].
  split; [unfold window; cbn; f_equal; lra |].
  split; [unfold window; cbn; f_equal; lra |].
  intros T. split; vm_compute; reflexivity.
Qed.

(** * Further properties of the code *)

(** ** The guest counter, click by click *)

Section CounterSteps.
Import Page.

(** On a whole number between 1 and 10 the two updaters compute what the
    integers compute. *)
Lemma exact_plus_step (k : nat) :
  (1 <= k <= 10)%nat ->
  Math_min (N:=R) (lit 10) (of_nat k + lit 1)%js = of_nat (Nat.min 10 (k + 1)).
Proof.
  intros Hk. cbn [Math_min Exact nadd lit of_nat].
  assert (H1 : (1 <= INR k <= 10)%R).
  { split; [replace 1%R with (INR 1) by reflexivity
           | replace 10%R with (INR 10) by (cbn; lra)]; apply le_INR; lia. }
  destruct (Nat.eq_dec k 10) as [-> | Hne].
  - cbn. rewrite Rmin_left; lra.
  - rewrite Nat.min_r by lia. rewrite plus_INR.
    assert (INR k <= 9)%R.
    { replace 9%R with (INR 9) by (cbn; lra). apply le_INR. lia. }
    cbn. rewrite Rmin_right; lra.
Qed.

Lemma exact_minus_step (k : nat) :
  (1 <= k <= 10)%nat ->
  Math_max (N:=R) (lit 1) (of_nat k - lit 1)%js = of_nat (Nat.max 1 (k - 1)).
Proof.
  intros Hk. cbn [Math_max Exact nsub lit of_nat].
  destruct (Nat.eq_dec k 1) as [-> | Hne].
  - cbn. rewrite Rmax_left; lra.
  - rewrite Nat.max_r by lia. rewrite minus_INR by lia.
    assert (2 <= INR k)%R.
    { replace 2%R with (INR 2) by (cbn; lra). apply le_INR. lia. }
    cbn. rewrite Rmax_right; lra.
Qed.

Lemma binary64_plus_step (k : nat) :
  (1 <= k <= 10)%nat ->
  Math_min (N:=float) (lit 10) (of_nat k + lit 1)%js = of_nat (Nat.min 10 (k + 1)).
Proof.
  intros [Hlo Hhi]. assert (Hk : (k < 11)%nat) by lia. clear Hhi.
  run_below k Hk.
Qed.

Lemma binary64_minus_step (k : nat) :
  (1 <= k <= 10)%nat ->
  Math_max (N:=float) (lit 1) (of_nat k - lit 1)%js = of_nat (Nat.max 1 (k - 1)).
Proof.
  intros [Hlo Hhi]. assert (Hk : (k < 11)%nat) by lia. clear Hhi.
  destruct k as [|k]; [exfalso; lia |].
  run_below k Hk.
Qed.

Context {N : Type} `{Number N}.

(** The counter after a run depends on the counter before it only. *)
Lemma run_guests_only (s : World -> World) (evs : list UIEvent) :
  forall w1 w2 : World,
    guests w1 = guests w2 -> guests (run s evs w1) = guests (run s evs w2).
Proof.
  induction evs as [|ev evs IH]; intros w1 w2 Hg.
  - exact Hg.
  - cbn [run fold_left]. apply IH.
    destruct ev; cbn; rewrite Hg; reflexivity.
Qed.

Lemma run_cons (s : World -> World) (ev : UIEvent) (evs : list UIEvent) (w : World) :
  run s (ev :: evs) w = run s evs (dispatch s ev w).
Proof. reflexivity. Qed.

(** A whole-number model of the counter: what holds of it holds of any
    arithmetic whose updaters agree with the integers on 1..10. *)
Variable plus_step : forall k, (1 <= k <= 10)%nat ->
  Math_min (lit 10) (of_nat k + lit 1)%js = of_nat (Nat.min 10 (k + 1)).
Variable minus_step : forall k, (1 <= k <= 10)%nat ->
  Math_max (lit 1) (of_nat k - lit 1)%js = of_nat (Nat.max 1 (k - 1)).

Lemma whole_dispatch (s : World -> World) (ev : UIEvent) (w : World) (k : nat) :
  (1 <= k <= 10)%nat -> guests w = of_nat k ->
  exists k', (1 <= k' <= 10)%nat /\ guests (dispatch s ev w) = of_nat k'.
Proof.
  intros Hk Hg. destruct ev; cbn; rewrite Hg.
  - exists (Nat.max 1 (k - 1)). split; [lia | apply minus_step, Hk].
  - exists (Nat.min 10 (k + 1)). split; [lia | apply plus_step, Hk].
  - exists k. split; [exact Hk | reflexivity].
Qed.

Lemma whole_run (s : World -> World) (evs : list UIEvent) :
  forall (w : World) (k : nat),
    (1 <= k <= 10)%nat -> guests w = of_nat k ->
    exists k', (1 <= k' <= 10)%nat /\ guests (run s evs w) = of_nat k'.
Proof.
  induction evs as [|ev evs IH]; intros w k Hk Hg.
  - exists k. split; assumption.
  - rewrite run_cons.
    destruct (whole_dispatch s ev w k Hk Hg) as (k' & Hk' & Hg').
    exact (IH _ k' Hk' Hg').
Qed.

Lemma plus_run (s : World -> World) (n : nat) :
  forall (w : World) (k : nat),
    (1 <= k <= 10)%nat -> guests w = of_nat k ->
    guests (run s (repeat ClickPlus n) w) = of_nat (Nat.min 10 (k + n)).
Proof.
  induction n as [|n IH]; intros w k Hk Hg.
  - replace (Nat.min 10 (k + 0)) with k by lia. exact Hg.
  - cbn [repeat]. rewrite run_cons.
    rewrite (IH _ (Nat.min 10 (k + 1))).
    + f_equal. lia.
    + lia.
    + cbn. rewrite Hg. apply plus_step, Hk.
Qed.

Lemma minus_run (s : World -> World) (n : nat) :
  forall (w : World) (k : nat),
    (1 <= k <= 10)%nat -> guests w = of_nat k ->
    guests (run s (repeat ClickMinus n) w) = of_nat (Nat.max 1 (k - n)).
Proof.
  induction n as [|n IH]; intros w k Hk Hg.
  - replace (Nat.max 1 (k - 0)) with k by lia. exact Hg.
  - cbn [repeat]. rewrite run_cons.
    rewrite (IH _ (Nat.max 1 (k - 1))).
    + f_equal. lia.
    + lia.
    + cbn. rewrite Hg. apply minus_step, Hk.
Qed.

End CounterSteps.

Section CounterFacts.
Import Page.

Lemma exact_mount_whole : guests (mount (N:=R)) = of_nat 2.
Proof. cbn. lra. Qed.

Lemma binary64_mount_whole : guests (mount (N:=float)) = of_nat 2.
Proof. reflexivity. Qed.

Lemma submit_keeps_guests {N : Type} `{Number N} (s : World -> World) (w : World) :
  guests (dispatch s Submit w) = guests w.
Proof. reflexivity. Qed.

End CounterFacts.

(** X1.  Submissions never count: after any sequence of events the guest
    counter is what the clicks alone, in the same order, would have made
    it, whatever the arithmetic and whatever the browser's own submission
    does. *)
Theorem submissions_do_not_count {N : Type} `{Number N}
    (browser_submit : Page.World -> Page.World)
    (evs : list Page.UIEvent) (w : Page.World) :
  Page.guests (Page.run browser_submit evs w)
  = Page.guests (Page.run browser_submit (List.filter is_click evs) w).
Proof.
  revert w. induction evs as [|ev evs IH]; intros w.
  - reflexivity.
  - destruct ev; cbn [List.filter is_click]; rewrite !run_cons.
    + apply IH.
    + apply IH.
    + rewrite <- IH. apply run_guests_only. reflexivity.
Qed.

(** X2.  The counter only ever holds a whole number: after any sequence of
    events from the freshly mounted page it is one of 1, 2, ..., 10, in
    exact arithmetic and as a double. *)
Theorem counter_is_whole
    (sR : Page.World (N:=R) -> Page.World)
    (sF : Page.World (N:=float) -> Page.World)
    (evs : list Page.UIEvent) :
  (exists k, (1 <= k <= 10)%nat /\
             Page.guests (Page.run sR evs Page.mount) = INR k) /\
  (exists k, (1 <= k <= 10)%nat /\
             Page.guests (Page.run sF evs Page.mount) = Z2F (Z.of_nat k)).
Proof.
  split.
  - apply (whole_run exact_plus_step exact_minus_step sR evs Page.mount 2);
      [lia | exact exact_mount_whole].
  - apply (whole_run binary64_plus_step binary64_minus_step sF evs Page.mount 2);
      [lia | exact binary64_mount_whole].
Qed.

(** X3.  The counter saturates: from a count [k] between 1 and 10, [n]
    clicks on the plus button give [min(10, k + n)] and [n] clicks on the
    minus button give [max(1, k - n)], so nine clicks on one button reach
    its bound from anywhere; in exact arithmetic and as doubles. *)
Theorem counter_saturates
    (sR : Page.World (N:=R) -> Page.World)
    (sF : Page.World (N:=float) -> Page.World)
    (wR : Page.World (N:=R)) (wF : Page.World (N:=float))
    (k n : nat) :
  (1 <= k <= 10)%nat ->
  Page.guests wR = INR k -> Page.guests wF = Z2F (Z.of_nat k) ->
  ( Page.guests (Page.run sR (repeat Page.ClickPlus n) wR)
      = INR (Nat.min 10 (k + n)) /\
    Page.guests (Page.run sR (repeat Page.ClickMinus n) wR)
      = INR (Nat.max 1 (k - n)) /\
    Page.guests (Page.run sR (repeat Page.ClickPlus (9 + n)) wR) = 10%R /\
    Page.guests (Page.run sR (repeat Page.ClickMinus (9 + n)) wR) = 1%R ) /\
  ( Page.guests (Page.run sF (repeat Page.ClickPlus n) wF)
      = Z2F (Z.of_nat (Nat.min 10 (k + n))) /\
    Page.guests (Page.run sF (repeat Page.ClickMinus n) wF)
      = Z2F (Z.of_nat (Nat.max 1 (k - n))) /\
    Page.guests (Page.run sF (repeat Page.ClickPlus (9 + n)) wF) = 10%float /\
    Page.guests (Page.run sF (repeat Page.ClickMinus (9 + n)) wF) = 1%float ).
Proof.
  intros Hk HR HF.
  pose proof (plus_run exact_plus_step sR) as PR.
  pose proof (minus_run exact_minus_step sR) as MR.
  pose proof (plus_run binary64_plus_step sF) as PF.
  pose proof (minus_run binary64_minus_step sF) as MF.
  split; (split; [| split; [| split]]).
  - exact (PR n wR k Hk HR).
  - exact (MR n wR k Hk HR).
  - rewrite (PR (9 + n)%nat wR k Hk HR).
    replace (Nat.min 10 (k + (9 + n))) with 10%nat by lia. cbn. lra.
  - rewrite (MR (9 + n)%nat wR k Hk HR).
    replace (Nat.max 1 (k - (9 + n))) with 1%nat by lia. reflexivity.
  - exact (PF n wF k Hk HF).
  - exact (MF n wF k Hk HF).
  - rewrite (PF (9 + n)%nat wF k Hk HF).
    replace (Nat.min 10 (k + (9 + n))) with 10%nat by lia. reflexivity.
  - rewrite (MF (9 + n)%nat wF k Hk HF).
    replace (Nat.max 1 (k - (9 + n))) with 1%nat by lia. reflexivity.
Qed.

Lemma counter_saturates_witness :
  Page.guests (Page.run (fun w => w) (repeat Page.ClickPlus 3) (Page.mount (N:=R)))
    = INR (Nat.min 10 (2 + 3)) /\
  Page.guests (Page.run (fun w => w) (repeat Page.ClickMinus (9 + 0))
                 (Page.mount (N:=float))) = 1%float.
Proof.
  assert (Hk : (1 <= 2 <= 10)%nat) by lia.
  pose proof (counter_saturates (fun w => w) (fun w => w) Page.mount Page.mount
                2 3 Hk exact_mount_whole binary64_mount_whole) as H3.
  pose proof (counter_saturates (fun w => w) (fun w => w) Page.mount Page.mount
                2 0 Hk exact_mount_whole binary64_mount_whole) as H0.
  destruct H3 as [[H3 _] _]. destruct H0 as [_ [_ [_ [_ H0]]]].
  split; [exact H3 | exact H0].
Defined.

(** X4.  Plus and minus undo each other away from the bounds, and only
    there: from a count [k] between 1 and 9 a click on plus followed by a
    click on minus returns to [k], and from [k + 1] minus followed by plus
    returns to [k + 1]; but from 10 plus-then-minus ends at 9, and from 1
    minus-then-plus ends at 2.  In exact arithmetic and as doubles. *)
Theorem counter_round_trip
    (sR : Page.World (N:=R) -> Page.World)
    (sF : Page.World (N:=float) -> Page.World)
    (wR : Page.World (N:=R)) (wF : Page.World (N:=float))
    (k : nat) :
  (1 <= k <= 9)%nat ->
  ( Page.guests (Page.run sR [Page.ClickPlus; Page.ClickMinus]
                   (Page.setGuests (fun _ => INR k) wR)) = INR k /\
    Page.guests (Page.run sR [Page.ClickMinus; Page.ClickPlus]
                   (Page.setGuests (fun _ => INR (k + 1)) wR)) = INR (k + 1) /\
    Page.guests (Page.run sR [Page.ClickPlus; Page.ClickMinus]
                   (Page.setGuests (fun _ => 10%R) wR)) = 9%R /\
    Page.guests (Page.run sR [Page.ClickMinus; Page.ClickPlus]
                   (Page.setGuests (fun _ => 1%R) wR)) = 2%R ) /\
  ( Page.guests (Page.run sF [Page.ClickPlus; Page.ClickMinus]
                   (Page.setGuests (fun _ => Z2F (Z.of_nat k)) wF))
      = Z2F (Z.of_nat k) /\
    Page.guests (Page.run sF [Page.ClickMinus; Page.ClickPlus]
                   (Page.setGuests (fun _ => Z2F (Z.of_nat (k + 1))) wF))
      = Z2F (Z.of_nat (k + 1)) /\
    Page.guests (Page.run sF [Page.ClickPlus; Page.ClickMinus]
                   (Page.setGuests (fun _ => 10%float) wF)) = 9%float /\
    Page.guests (Page.run sF [Page.ClickMinus; Page.ClickPlus]
                   (Page.setGuests (fun _ => 1%float) wF)) = 2%float ).
Proof.
  intros Hk.
  assert (H1 : (1 <= INR k <= 9)%R).
  { split; [replace 1%R with (INR 1) by reflexivity
           | replace 9%R with (INR 9) by (cbn; lra)]; apply le_INR; lia. }
  assert (Q10 : Q2R 10 = 10%R) by (cbn; lra).
  assert (Q1 : Q2R 1 = 1%R) by (cbn; lra).
  split; (split; [| split; [| split]]).
  - cbn. rewrite Q10, Q1.
    rewrite (Rmin_right 10) by lra. rewrite Rmax_right; lra.
  - cbn -[INR]. rewrite Q10, Q1, plus_INR. cbn [INR].
    rewrite (Rmax_right 1) by lra. rewrite Rmin_right; lra.
  - cbn. rewrite Q10, Q1.
    rewrite (Rmin_left 10) by lra. rewrite Rmax_right; lra.
  - cbn. rewrite Q10, Q1.
    rewrite (Rmax_left 1) by lra. rewrite Rmin_right; lra.
  - destruct Hk as [Hlo Hhi]. assert (Hk : (k < 10)%nat) by lia. clear Hhi.
    destruct k as [|k]; [exfalso; lia |]. run_below k Hk.
  - destruct Hk as [Hlo Hhi]. assert (Hk : (k < 10)%nat) by lia. clear Hhi.
    destruct k as [|k]; [exfalso; lia |]. run_below k Hk.
  - reflexivity.
  - reflexivity.
Qed.

Lemma counter_round_trip_witness :
  (1 <= 9 <= 9)%nat /\
  Page.guests (Page.run (fun w => w) [Page.ClickPlus; Page.ClickMinus]
                 (Page.setGuests (fun _ => INR 9) (Page.mount (N:=R)))) = INR 9.
Proof.
  assert (Hk : (1 <= 9 <= 9)%nat) by lia.
  split; [exact Hk |].
  destruct (counter_round_trip (fun w => w) (fun w => w) Page.mount Page.mount 9 Hk)
    as [[H9 _] _].
  exact H9.
Defined.

(** ** Where the petals sit *)

Section Spiral.
Local Open Scope R_scope.

(** A point at angle [t] and distance [r] lies on the circle of radius [r]. *)
Lemma on_circle (t r : R) :
  (cos t * r) * (cos t * r) + (sin t * r) * (sin t * r) = r * r.
Proof.
  pose proof (sin2_cos2 t) as H. unfold Rsqr in H.
  replace (cos t * r * (cos t * r) + sin t * r * (sin t * r))
    with ((sin t * sin t + cos t * cos t) * (r * r)) by ring.
  rewrite H. ring.
Qed.

Lemma within_radius (c r : R) : -1 <= c <= 1 -> 0 <= r -> - r <= c * r <= r.
Proof. intros Hc Hr. split; nra. Qed.

Lemma sqrt_INR_bound (i n : nat) (b : R) :
  (i <= n)%nat -> 0 <= b -> INR n < b * b -> 0 <= sqrt (INR i) < b.
Proof.
  intros Hi Hb Hn. split; [apply sqrt_pos |].
  rewrite <- (sqrt_square b Hb).
  apply sqrt_lt_1; [apply pos_INR | nra |].
  apply le_INR in Hi. lra.
Qed.

Lemma sqrt_INR_increasing (i j : nat) :
  (i < j)%nat -> sqrt (INR i) < sqrt (INR j).
Proof.
  intros Hij. apply sqrt_lt_1; [apply pos_INR | apply pos_INR | apply lt_INR, Hij].
Qed.

End Spiral.

(** X5.  Every petal of the large rose is anchored on the Fermat spiral:
    the point it is translated to has squared distance [30.25 * i] from
    the centre, that is, distance [sqrt i * 5.5]; and every petal of the
    small icon has squared distance [16 * i] from the icon's centre
    (25, 25).  Exact arithmetic, with the real cosine and sine. *)
Theorem petals_on_spiral (d : R) (i : nat) :
  ( let '(x, y) := translate (Hero.SvgRose_petal d i) in
    (x * x + y * y = 30.25 * INR i)%R /\
    sqrt (x * x + y * y) = Hero.dist i ) /\
  ( let '(x, y) := translate (Page.Rose_petal d i) in
    (x * x + y * y = 30.25 * INR i)%R /\
    sqrt (x * x + y * y) = Page.dist i ) /\
  ( let '(x, y) := icon_translate (Hero.SmallRoseIcon_petal (N:=R) i) in
    ((x - 25) * (x - 25) + (y - 25) * (y - 25) = 16 * INR i)%R ) /\
  ( let '(x, y) := icon_translate (Page.SmallRoseIcon_petal (N:=R) i) in
    ((x - 25) * (x - 25) + (y - 25) * (y - 25) = 16 * INR i)%R ).
Proof.
  pose proof (pos_INR i) as Hi.
  pose proof (sqrt_sqrt (INR i) Hi) as Hs.
  pose proof (sqrt_pos (INR i)) as Hp.
  assert (Hrose : forall t : R,
            ((cos t * (sqrt (INR i) * Q2R 5.5)) * (cos t * (sqrt (INR i) * Q2R 5.5))
             + (sin t * (sqrt (INR i) * Q2R 5.5)) * (sin t * (sqrt (INR i) * Q2R 5.5))
             = 30.25 * INR i)%R).
  { intros t. rewrite on_circle.
    replace (sqrt (INR i) * Q2R 5.5 * (sqrt (INR i) * Q2R 5.5))%R
      with ((sqrt (INR i) * sqrt (INR i)) * (Q2R 5.5 * Q2R 5.5))%R by ring.
    rewrite Hs. cbn. lra. }
  assert (Hdist : forall t : R,
            sqrt ((cos t * (sqrt (INR i) * Q2R 5.5)) * (cos t * (sqrt (INR i) * Q2R 5.5))
                  + (sin t * (sqrt (INR i) * Q2R 5.5)) * (sin t * (sqrt (INR i) * Q2R 5.5)))
            = (sqrt (INR i) * Q2R 5.5)%R).
  { intros t. rewrite on_circle. apply sqrt_square.
    apply Rmult_le_pos; [exact Hp | cbn; lra]. }
  assert (Hicon : forall t : R,
            ((Q2R 25 + cos t * (sqrt (INR i) * Q2R 4) - 25)
               * (Q2R 25 + cos t * (sqrt (INR i) * Q2R 4) - 25)
             + (Q2R 25 + sin t * (sqrt (INR i) * Q2R 4) - 25)
               * (Q2R 25 + sin t * (sqrt (INR i) * Q2R 4) - 25)
             = 16 * INR i)%R).
  { intros t.
    replace (Q2R 25 + cos t * (sqrt (INR i) * Q2R 4) - 25)%R
      with (cos t * (sqrt (INR i) * Q2R 4))%R by (cbn; lra).
    replace (Q2R 25 + sin t * (sqrt (INR i) * Q2R 4) - 25)%R
      with (sin t * (sqrt (INR i) * Q2R 4))%R by (cbn; lra).
    rewrite on_circle.
    replace (sqrt (INR i) * Q2R 4 * (sqrt (INR i) * Q2R 4))%R
      with ((sqrt (INR i) * sqrt (INR i)) * (Q2R 4 * Q2R 4))%R by ring.
    rewrite Hs. cbn. lra. }
  split; [| split; [| split]].
  - split; [apply Hrose | apply Hdist].
  - split; [apply Hrose | apply Hdist].
  - apply Hicon.
  - apply Hicon.
Qed.

(** X6.  The petals of the small icon are anchored inside its 50 by 50
    view box: for every index below 12 both coordinates of the anchor are
    within 13.3 of the centre 25, hence strictly between 0 and 50.  Exact
    arithmetic, with the real cosine and sine. *)
Theorem icon_petals_inside_box (i : nat) :
  (i < 12)%nat ->
  let '(x, y) := icon_translate (Hero.SmallRoseIcon_petal (N:=R) i) in
  let '(x', y') := icon_translate (Page.SmallRoseIcon_petal (N:=R) i) in
  (Rabs (x - 25) < 13.3 /\ Rabs (y - 25) < 13.3 /\
   0 < x < 50 /\ 0 < y < 50 /\ x' = x /\ y' = y)%R.
Proof.
  intros Hi. cbn [icon_translate Hero.SmallRoseIcon_petal Page.SmallRoseIcon_petal].
  set (t := Hero.icon_r i).
  assert (Hs : (0 <= sqrt (INR i) < 3.32)%R).
  { apply (sqrt_INR_bound i 11); [lia | lra | cbn; lra]. }
  assert (Hd : (0 <= Hero.icon_d (N:=R) i < 13.28)%R).
  { unfold Hero.icon_d. cbn. lra. }
  pose proof (within_radius (cos t) (Hero.icon_d i) (COS_bound t) (proj1 Hd)) as Hx.
  pose proof (within_radius (sin t) (Hero.icon_d i) (SIN_bound t) (proj1 Hd)) as Hy.
  cbn [nadd nmul Exact Math_cos Math_sin ExactTrig lit].
  fold t.
  assert (Q25 : Q2R 25 = 25%R) by (cbn; lra). rewrite Q25.
  repeat split; try reflexivity; try (apply Rabs_def1); lra.
Qed.

Lemma icon_petals_inside_box_witness :
  (11 < 12)%nat /\
  (let '(x, y) := icon_translate (Hero.SmallRoseIcon_petal (N:=R) 11) in
   0 < x < 50 /\ 0 < y < 50)%R.
Proof.
  assert (Hi : (11 < 12)%nat) by lia.
  split; [exact Hi |].
  pose proof (icon_petals_inside_box 11 Hi) as H.
  cbn [icon_translate Hero.SmallRoseIcon_petal Page.SmallRoseIcon_petal] in H |- *.
  destruct H as (_ & _ & Hx & Hy & _). split; assumption.
Defined.

(** X7.  Outer petals are farther out and larger: for indices [i < j]
    below 24, petal [j] of the large rose lies strictly farther from the
    centre than petal [i] and is scaled strictly larger; every scale lies in
    [0.35, 1.1) and every distance below 26.4.  In exact arithmetic and for
    the doubles the engine computes, for both copies of the generator. *)
Theorem petals_grow_outward (i j : nat) :
  (i < j)%nat -> (j < 24)%nat ->
  ( (Hero.dist (N:=R) i < Hero.dist j < 26.4)%R /\
    (0.35 <= Hero.petalScale (N:=R) i < Hero.petalScale j)%R /\
    (Hero.petalScale (N:=R) j < 1.1)%R /\
    (Page.dist (N:=R) i < Page.dist j < 26.4)%R /\
    (0.35 <= Page.petalScale (N:=R) i < Page.petalScale j)%R /\
    (Page.petalScale (N:=R) j < 1.1)%R ) /\
  ( (Hero.dist (N:=float) i <? Hero.dist j)%float = true /\
    (Hero.dist (N:=float) j <? 26.4)%float = true /\
    (0.35 <=? Hero.petalScale (N:=float) i)%float = true /\
    (Hero.petalScale (N:=float) i <? Hero.petalScale j)%float = true /\
    (Hero.petalScale (N:=float) j <? 1.1)%float = true /\
    (Page.dist (N:=float) i <? Page.dist j)%float = true /\
    (Page.dist (N:=float) j <? 26.4)%float = true /\
    (0.35 <=? Page.petalScale (N:=float) i)%float = true /\
    (Page.petalScale (N:=float) i <? Page.petalScale j)%float = true /\
    (Page.petalScale (N:=float) j <? 1.1)%float = true ).
Proof.
  intros Hij Hj.
  assert (Hi : (i < 24)%nat) by lia.
  split.
  - pose proof (sqrt_INR_increasing i j Hij) as Hs.
    pose proof (sqrt_INR_bound j 23 4.796 ltac:(lia) ltac:(lra) ltac:(cbn; lra)) as Hb.
    pose proof (pos_INR i) as H0.
    assert (Hlt : (INR i < INR j)%R) by (apply lt_INR, Hij).
    assert (Hle : (INR j <= 23)%R).
    { replace 23%R with (INR 23) by (cbn; lra). apply le_INR. lia. }
    unfold Hero.dist, Hero.petalScale, Page.dist, Page.petalScale,
      Hero.NUM_PETALS, Page.NUM_PETALS.
    cbn [Math_sqrt nmul nadd ndiv Exact lit of_nat].
    assert (Q24 : INR 24 = 24%R) by (cbn; lra). rewrite Q24.
    repeat split; lra.
  - repeat split.
    all: first
      [ apply (increasing_below_sound (Hero.dist (N:=float)) 24);
          [vm_compute; reflexivity | exact Hij | exact Hj]
      | apply (increasing_below_sound (Hero.petalScale (N:=float)) 24);
          [vm_compute; reflexivity | exact Hij | exact Hj]
      | apply (increasing_below_sound (Page.dist (N:=float)) 24);
          [vm_compute; reflexivity | exact Hij | exact Hj]
      | apply (increasing_below_sound (Page.petalScale (N:=float)) 24);
          [vm_compute; reflexivity | exact Hij | exact Hj]
      | solve [clear Hij Hi; run_below j Hj]
      | solve [clear Hij Hj; run_below i Hi] ].
Qed.

Lemma petals_grow_outward_witness :
  (22 < 23)%nat /\ (23 < 24)%nat /\
  (Hero.dist (N:=R) 22 < Hero.dist 23 < 26.4)%R /\
  (Hero.petalScale (N:=float) 22 <? Hero.petalScale 23)%float = true.
Proof.
  assert (H1 : (22 < 23)%nat) by lia.
  assert (H2 : (23 < 24)%nat) by lia.
  destruct (petals_grow_outward 22 23 H1 H2) as [[HR _] [_ [_ [_ [HF _]]]]].
  split; [exact H1 | split; [exact H2 | split; [exact HR | exact HF]]].
Defined.

(** ** The directions of the petals *)

Section Directions.
Local Open Scope Z_scope.

(** 137.508 degrees is 11459/30000 of a turn, a fraction in lowest terms:
    [k] steps make whole turns only when [k] is a multiple of 30000. *)
Lemma golden_steps_whole_turns (k m : Z) :
  137508 * k = 360000 * m -> (30000 | k).
Proof.
  intros H.
  assert (H' : 11459 * k = 30000 * m) by lia.
  apply Z.gauss with 11459.
  - exists m. lia.
  - reflexivity.
Qed.

End Directions.

(** The decision is complete: doubles that are whole turns apart are found
    to be. *)
Lemma whole_turns_apart_complete (a b : float) :
  same_direction_binary64 a b -> whole_turns_apart a b = true.
Proof.
  intros (qa & qb & m & Ha & Hb & Hq).
  unfold whole_turns_apart. rewrite Ha, Hb. cbn zeta.
  set (q := (qa - qb)%Q) in *.
  unfold Qeq in Hq. cbn [Qnum Qden Qmult inject_Z] in Hq.
  apply Z.eqb_eq.
  replace (Qnum q) with (m * (360 * Zpos (Qden q)))%Z by lia.
  apply Z_mod_mult.
Qed.

Lemma directions_distinct_below_sound (f : nat -> float) (n : nat) :
  directions_distinct_below f n = true ->
  forall i j, i <> j -> (i < n)%nat -> (j < n)%nat ->
    (exists q, F_value (f i) = Some q) /\
    ~ same_direction_binary64 (f i) (f j).
Proof.
  intros Hall i j Hne Hi Hj. unfold directions_distinct_below in Hall.
  rewrite forallb_forall in Hall.
  specialize (Hall i ltac:(apply in_seq; lia)).
  apply andb_true_iff in Hall as [Hfin Hall].
  rewrite forallb_forall in Hall.
  specialize (Hall j ltac:(apply in_seq; lia)).
  split.
  - destruct (F_value (f i)) as [q|]; [exists q; reflexivity | discriminate Hfin].
  - intros Hsame. apply whole_turns_apart_complete in Hsame.
    rewrite Hsame in Hall. cbn in Hall. rewrite orb_false_r in Hall.
    apply Nat.eqb_eq in Hall. contradiction.
Qed.

(** X8.  No two of the 24 petals of a rose point the same way: for
    distinct indices below 24 the rotations [angle + 90] of two petals
    never differ by a whole number of turns.  This holds in exact
    arithmetic, where 137.508 degrees is 11459/30000 of a turn in lowest
    terms, and for the doubles the engine computes, taken at their exact
    values; both copies of the generator. *)
Theorem petal_directions_distinct (d : R) (i j : nat) :
  i <> j -> (i < 24)%nat -> (j < 24)%nat ->
  ( ~ same_direction (rotate (Hero.SvgRose_petal d i))
                     (rotate (Hero.SvgRose_petal d j)) /\
    ~ same_direction (rotate (Page.Rose_petal d i))
                     (rotate (Page.Rose_petal d j)) ) /\
  ( forall (T : Trig float) (dF : float),
      (exists q, F_value (rotate (Hero.SvgRose_petal dF i)) = Some q) /\
      (exists q, F_value (rotate (Page.Rose_petal dF i)) = Some q) /\
      ~ same_direction_binary64 (rotate (Hero.SvgRose_petal dF i))
                                (rotate (Hero.SvgRose_petal dF j)) /\
      ~ same_direction_binary64 (rotate (Page.Rose_petal dF i))
                                (rotate (Page.Rose_petal dF j)) ).
Proof.
  intros Hne Hi Hj.
  assert (Hno : forall m : Z,
            (INR i * Q2R 137.508 + Q2R 90 - (INR j * Q2R 137.508 + Q2R 90)
             = 360 * IZR m)%R -> False).
  { intros m Hm.
    assert (Hz : (IZR (137508 * (Z.of_nat i - Z.of_nat j)) = IZR (360000 * m))%R).
    { rewrite !mult_IZR, minus_IZR, <- !INR_IZR_INZ. lra. }
    apply eq_IZR in Hz.
    destruct (golden_steps_whole_turns _ _ Hz) as [q Hq]. lia. }
  split.
  - split; intros [m Hm]; exact (Hno m Hm).
  - intros T dF.
    assert (HH : directions_distinct_below
                   (fun k => rotate (Hero.SvgRose_petal dF k)) 24 = true)
      by (vm_compute; reflexivity).
    assert (HP : directions_distinct_below
                   (fun k => rotate (Page.Rose_petal dF k)) 24 = true)
      by (vm_compute; reflexivity).
    destruct (directions_distinct_below_sound _ 24 HH i j Hne Hi Hj) as [HfH HdH].
    destruct (directions_distinct_below_sound _ 24 HP i j Hne Hi Hj) as [HfP HdP].
    split; [exact HfH | split; [exact HfP | split; [exact HdH | exact HdP]]].
Qed.

Lemma petal_directions_distinct_witness :
  0%nat <> 23%nat /\ (0 < 24)%nat /\ (23 < 24)%nat /\
  ~ same_direction (rotate (Hero.SvgRose_petal 2.2%R 0))
                   (rotate (Hero.SvgRose_petal 2.2%R 23)) /\
  (forall T : Trig float,
     ~ same_direction_binary64 (rotate (Page.Rose_petal 2.2%float 0))
                               (rotate (Page.Rose_petal 2.2%float 23))).
Proof.
  assert (H0 : 0%nat <> 23%nat) by lia.
  assert (H1 : (0 < 24)%nat) by lia.
  assert (H2 : (23 < 24)%nat) by lia.
  destruct (petal_directions_distinct 2.2%R 0 23 H0 H1 H2) as [[HR _] HF].
  split; [exact H0 | split; [exact H1 | split; [exact H2 | split; [exact HR |]]]].
  intros T. destruct (HF T 2.2%float) as (_ & _ & _ & HP). exact HP.
Defined.

(** ** The colours of the petals *)

Section Fill.

Lemma exact_rose_fill (d : R) (i : nat) :
  (i < 24)%nat ->
  fill (Hero.SvgRose_petal d i) = nth_error Hero.ROSE_COLORS (i * 9 / 24) /\
  fill (Page.Rose_petal d i) = nth_error Page.ROSE_COLORS (i * 9 / 24).
Proof.
  intros Hi. cbn [fill Hero.SvgRose_petal Page.Rose_petal].
  rewrite Hero_exact_ci, Page_exact_ci by exact Hi.
  rewrite !exact_get_INR. split; reflexivity.
Qed.

Lemma exact_icon_fill (i : nat) :
  (i < 12)%nat ->
  icon_fill (Hero.SmallRoseIcon_petal (N:=R) i)
    = nth_error Hero.ROSE_COLORS (i * 9 / 12) /\
  icon_fill (Page.SmallRoseIcon_petal (N:=R) i)
    = nth_error Page.ROSE_COLORS (i * 9 / 12).
Proof.
  intros Hi. cbn [icon_fill Hero.SmallRoseIcon_petal Page.SmallRoseIcon_petal].
  rewrite Hero_exact_icon_ci, Page_exact_icon_ci by exact Hi.
  rewrite !exact_get_INR. split; reflexivity.
Qed.

Lemma binary64_rose_fill (T : Trig float) (d : float) (i : nat) :
  (i < 24)%nat ->
  fill (Hero.SvgRose_petal d i) = nth_error Hero.ROSE_COLORS (i * 9 / 24) /\
  fill (Page.Rose_petal d i) = nth_error Page.ROSE_COLORS (i * 9 / 24).
Proof.
  intros Hi. cbn [fill Hero.SvgRose_petal Page.Rose_petal].
  rewrite Hero_binary64_ci, Page_binary64_ci by exact Hi.
  rewrite !binary64_get_small by (apply index_below_palette, Hi).
  split; reflexivity.
Qed.

Lemma binary64_icon_fill (T : Trig float) (i : nat) :
  (i < 12)%nat ->
  icon_fill (Hero.SmallRoseIcon_petal (N:=float) i)
    = nth_error Hero.ROSE_COLORS (i * 9 / 12) /\
  icon_fill (Page.SmallRoseIcon_petal (N:=float) i)
    = nth_error Page.ROSE_COLORS (i * 9 / 12).
Proof.
  intros Hi. cbn [icon_fill Hero.SmallRoseIcon_petal Page.SmallRoseIcon_petal].
  rewrite Hero_binary64_icon_ci, Page_binary64_icon_ci by exact Hi.
  rewrite !binary64_get_small by (apply index_below_palette, Hi).
  split; reflexivity.
Qed.

(** Every colour of the palette is the colour at [i * 9 / n] for some
    index [i] below [n], when [n] is 24 or 12. *)
Lemma colour_reached (n : nat) (c : string) :
  n = 24%nat \/ n = 12%nat ->
  In c Hero.ROSE_COLORS ->
  exists i, (i < n)%nat /\ nth_error Hero.ROSE_COLORS (i * 9 / n) = Some c.
Proof.
  intros Hn Hc.
  unfold Hero.ROSE_COLORS in Hc. cbn [In] in Hc.
  destruct Hn as [-> | ->].
  - repeat (destruct Hc as [<- | Hc];
            [ first [ exists 0%nat; split; [lia | reflexivity]
                    | exists 3%nat; split; [lia | reflexivity]
                    | exists 6%nat; split; [lia | reflexivity]
                    | exists 8%nat; split; [lia | reflexivity]
                    | exists 11%nat; split; [lia | reflexivity]
                    | exists 14%nat; split; [lia | reflexivity]
                    | exists 16%nat; split; [lia | reflexivity]
                    | exists 19%nat; split; [lia | reflexivity]
                    | exists 22%nat; split; [lia | reflexivity] ] | ]).
    destruct Hc.
  - repeat (destruct Hc as [<- | Hc];
            [ first [ exists 0%nat; split; [lia | reflexivity]
                    | exists 2%nat; split; [lia | reflexivity]
                    | exists 3%nat; split; [lia | reflexivity]
                    | exists 4%nat; split; [lia | reflexivity]
                    | exists 6%nat; split; [lia | reflexivity]
                    | exists 7%nat; split; [lia | reflexivity]
                    | exists 8%nat; split; [lia | reflexivity]
                    | exists 10%nat; split; [lia | reflexivity]
                    | exists 11%nat; split; [lia | reflexivity] ] | ]).
    destruct Hc.
Qed.

End Fill.

(** X9.  Every colour of the palette is used: for each of the nine colours
    some petal of the large rose (index below 24) and some petal of the
    small icon (index below 12) is filled with it, in both copies; in both
    copies the first petal of the rose and of the icon has the darkest
    colour and the last the lightest.  In exact arithmetic and for the
    doubles the engine computes. *)
Theorem palette_fully_used (dR : R) (dF : float) (c : string) :
  In c Hero.ROSE_COLORS ->
  ( (exists i, (i < 24)%nat /\ fill (Hero.SvgRose_petal dR i) = Some c) /\
    (exists i, (i < 24)%nat /\ fill (Page.Rose_petal dR i) = Some c) /\
    (exists i, (i < 12)%nat /\ icon_fill (Hero.SmallRoseIcon_petal (N:=R) i) = Some c) /\
    (exists i, (i < 12)%nat /\ icon_fill (Page.SmallRoseIcon_petal (N:=R) i) = Some c) /\
    fill (Hero.SvgRose_petal dR 0) = Some "#6a1530"%string /\
    fill (Hero.SvgRose_petal dR 23) = Some "#f4b0c4"%string /\
    icon_fill (Hero.SmallRoseIcon_petal (N:=R) 0) = Some "#6a1530"%string /\
    icon_fill (Hero.SmallRoseIcon_petal (N:=R) 11) = Some "#f4b0c4"%string /\
    fill (Page.Rose_petal dR 0) = Some "#6a1530"%string /\
    fill (Page.Rose_petal dR 23) = Some "#f4b0c4"%string /\
    icon_fill (Page.SmallRoseIcon_petal (N:=R) 0) = Some "#6a1530"%string /\
    icon_fill (Page.SmallRoseIcon_petal (N:=R) 11) = Some "#f4b0c4"%string ) /\
  ( forall T : Trig float,
    (exists i, (i < 24)%nat /\ fill (Hero.SvgRose_petal dF i) = Some c) /\
    (exists i, (i < 24)%nat /\ fill (Page.Rose_petal dF i) = Some c) /\
    (exists i, (i < 12)%nat /\ icon_fill (Hero.SmallRoseIcon_petal (N:=float) i) = Some c) /\
    (exists i, (i < 12)%nat /\ icon_fill (Page.SmallRoseIcon_petal (N:=float) i) = Some c) /\
    fill (Hero.SvgRose_petal dF 0) = Some "#6a1530"%string /\
    fill (Hero.SvgRose_petal dF 23) = Some "#f4b0c4"%string /\
    icon_fill (Hero.SmallRoseIcon_petal (N:=float) 0) = Some "#6a1530"%string /\
    icon_fill (Hero.SmallRoseIcon_petal (N:=float) 11) = Some "#f4b0c4"%string /\
    fill (Page.Rose_petal dF 0) = Some "#6a1530"%string /\
    fill (Page.Rose_petal dF 23) = Some "#f4b0c4"%string /\
    icon_fill (Page.SmallRoseIcon_petal (N:=float) 0) = Some "#6a1530"%string /\
    icon_fill (Page.SmallRoseIcon_petal (N:=float) 11) = Some "#f4b0c4"%string ).
Proof.
  intros Hc.
  destruct (colour_reached 24 c (or_introl eq_refl) Hc) as (i & Hi & Hci).
  destruct (colour_reached 12 c (or_intror eq_refl) Hc) as (k & Hk & Hck).
  destruct (exact_rose_fill dR i Hi) as [E1 E2].
  destruct (exact_icon_fill k Hk) as [E3 E4].
  split.
  - split; [exists i; split; [exact Hi | rewrite E1; exact Hci] |].
    split; [exists i; split; [exact Hi | rewrite E2; exact Hci] |].
    split; [exists k; split; [exact Hk | rewrite E3; exact Hck] |].
    split; [exists k; split; [exact Hk | rewrite E4; exact Hck] |].
    split; [rewrite (proj1 (exact_rose_fill dR 0 ltac:(lia))); reflexivity |].
    split; [rewrite (proj1 (exact_rose_fill dR 23 ltac:(lia))); reflexivity |].
    split; [rewrite (proj1 (exact_icon_fill 0 ltac:(lia))); reflexivity |].
    split; [rewrite (proj1 (exact_icon_fill 11 ltac:(lia))); reflexivity |].
    split; [rewrite (proj2 (exact_rose_fill dR 0 ltac:(lia))); reflexivity |].
    split; [rewrite (proj2 (exact_rose_fill dR 23 ltac:(lia))); reflexivity |].
    split; [rewrite (proj2 (exact_icon_fill 0 ltac:(lia))); reflexivity |].
    rewrite (proj2 (exact_icon_fill 11 ltac:(lia))); reflexivity.
  - intros T.
    destruct (binary64_rose_fill T dF i Hi) as [B1 B2].
    destruct (binary64_icon_fill T k Hk) as [B3 B4].
    split; [exists i; split; [exact Hi | rewrite B1; exact Hci] |].
    split; [exists i; split; [exact Hi | rewrite B2; exact Hci] |].
    split; [exists k; split; [exact Hk | rewrite B3; exact Hck] |].
    split; [exists k; split; [exact Hk | rewrite B4; exact Hck] |].
    split; [rewrite (proj1 (binary64_rose_fill T dF 0 ltac:(lia))); reflexivity |].
    split; [rewrite (proj1 (binary64_rose_fill T dF 23 ltac:(lia))); reflexivity |].
    split; [rewrite (proj1 (binary64_icon_fill T 0 ltac:(lia))); reflexivity |].
    split; [rewrite (proj1 (binary64_icon_fill T 11 ltac:(lia))); reflexivity |].
    split; [rewrite (proj2 (binary64_rose_fill T dF 0 ltac:(lia))); reflexivity |].
    split; [rewrite (proj2 (binary64_rose_fill T dF 23 ltac:(lia))); reflexivity |].
    split; [rewrite (proj2 (binary64_icon_fill T 0 ltac:(lia))); reflexivity |].
    rewrite (proj2 (binary64_icon_fill T 11 ltac:(lia))); reflexivity.
Qed.

Lemma palette_fully_used_witness :
  In "#c04668"%string Hero.ROSE_COLORS /\
  (exists i, (i < 24)%nat /\ fill (Hero.SvgRose_petal 2.2%R i) = Some "#c04668"%string) /\
  (exists i, (i < 24)%nat /\ fill (Page.Rose_petal 2.2%R i) = Some "#c04668"%string).
Proof.
  assert (Hc : In "#c04668"%string Hero.ROSE_COLORS).
  { unfold Hero.ROSE_COLORS. cbn. tauto. }
  split; [exact Hc |].
  destruct (palette_fully_used 2.2%R 2.2%float "#c04668"%string Hc)
    as [(H & H' & _) _].
  split; [exact H | exact H'].
Defined.

(** ** How long a rose takes to open *)

Section Bloom.
Local Open Scope R_scope.

Lemma In_Array_from {A : Type} (n : nat) (f : nat -> A) (x : A) :
  In x (Array_from n f) <-> exists i, (i < n)%nat /\ x = f i.
Proof.
  unfold Array_from. rewrite in_map_iff. split.
  - intros (i & <- & Hi). apply in_seq in Hi. exists i. split; [lia | reflexivity].
  - intros (i & Hi & ->). exists i. split; [reflexivity | apply in_seq; lia].
Qed.

(** The petals of a rose of delay [d] all animate inside [d, d + 1.47], and
    the last one ends there. *)
Lemma exact_petal_windows (f : nat -> Petal R) (d : R) :
  (forall i, window (transition (f i)) = (d + INR i * 0.04, d + INR i * 0.04 + 0.55)) ->
  Forall (fun t => d <= fst (window t) /\ snd (window t) <= d + 1.47)
         (List.map transition (Array_from 24 f)) /\
  Exists (fun t => snd (window t) = d + 1.47)
         (List.map transition (Array_from 24 f)).
Proof.
  intros Hw. split.
  - apply Forall_forall. intros t Ht.
    apply in_map_iff in Ht as (p & <- & Hp).
    apply In_Array_from in Hp as (i & Hi & ->).
    rewrite Hw. cbn [fst snd].
    pose proof (pos_INR i) as H0.
    assert (INR i <= 23).
    { replace 23 with (INR 23) by (cbn; lra). apply le_INR. lia. }
    lra.
  - apply Exists_exists. exists (transition (f 23%nat)). split.
    + apply in_map, In_Array_from. exists 23%nat. split; [lia | reflexivity].
    + rewrite Hw. cbn. lra.
Qed.

End Bloom.

(** X10.  A rose is fully open 1.47 s after its delay: for every delay [d]
    and size, everything the rose animates (the wrapper of the standalone
    rose, the centre circle and the 24 petals) runs inside the window from
    [d] to [d + 1.47], the first element starting at [d] and the last petal
    finishing at [d + 1.47]; the centre circle is done at [d + 0.25] and the
    wrapper at [d + 0.5].  Exact arithmetic. *)
Theorem rose_bloom_span (d size : R) :
  spans (SvgRose_transitions (Hero.SvgRose d size)) (d, d + 1.47)%R /\
  spans (Rose_transitions (Page.Rose d size)) (d, d + 1.47)%R /\
  window (Hero.rose_center (Hero.SvgRose d size)) = (d, d + 0.25)%R /\
  window (Page.rose_center (Page.Rose d size)) = (d, d + 0.25)%R /\
  window (Page.rose_wrapper (Page.Rose d size)) = (d, d + 0.5)%R /\
  List.length (SvgRose_transitions (Hero.SvgRose d size)) = 25%nat /\
  List.length (Rose_transitions (Page.Rose d size)) = 26%nat.
Proof.
  destruct (exact_petal_windows (Hero.SvgRose_petal d) d) as [HF HE].
  { intros i. unfold window. cbn. f_equal; lra. }
  destruct (exact_petal_windows (Page.Rose_petal d) d) as [PF PE].
  { intros i. unfold window. cbn. f_equal; lra. }
  unfold spans, SvgRose_transitions, Rose_transitions.
  cbn [Hero.SvgRose Hero.rose_center Hero.rose_petals
       Page.Rose Page.rose_center Page.rose_petals Page.rose_wrapper fst snd].
  split; [| split; [| split; [| split; [| split; [| split]]]]].
  - split; [| split].
    + apply Exists_cons_hd. reflexivity.
    + apply Exists_cons_tl. exact HE.
    + apply Forall_cons; [cbn; lra | exact HF].
  - split; [| split].
    + apply Exists_cons_hd. reflexivity.
    + do 2 apply Exists_cons_tl. exact PE.
    + apply Forall_cons; [cbn; lra |]. apply Forall_cons; [cbn; lra | exact PF].
  - unfold window. cbn. f_equal.
  - unfold window. cbn. f_equal.
  - unfold window. cbn. f_equal.
  - reflexivity.
  - reflexivity.
Qed.

(** ** Stems and leaves of the hero of part_000 *)

(** X11.  A stem leads its rose: for any tail and any branch, the stem
    starts at the tail and ends exactly where the rose is translated to; it
    is drawn over the window from [delay - 0.3] to [delay + 0.6], so the
    rose, which starts at the branch's delay, begins to open 0.3 s after
    the stem has started and while it is still being drawn, and the centre
    of the rose is complete before the stem is.  In exact arithmetic for
    every branch; as doubles for the eight branches of the page. *)
Theorem stem_leads_rose (tail : R * R) (b : Hero.RoseBranch (N:=R)) :
  let e := Hero.branch tail b in
  let d := Hero.branch_delay b in
  Hero.stem_from e = tail /\
  Hero.stem_to e = Hero.rose_translate e /\
  window (Hero.stem_transition e) = (d - 0.3, d + 0.6)%R /\
  delay (Hero.rose_center (Hero.branch_rose e)) = d /\
  (fst (window (Hero.stem_transition e)) < d < snd (window (Hero.stem_transition e)))%R /\
  (snd (window (Hero.rose_center (Hero.branch_rose e)))
     < snd (window (Hero.stem_transition e)))%R /\
  (forall T : Trig float,
     List.length (Hero.Home_branches (N:=float)) = 8%nat /\
     List.map Hero.branch_rose Hero.Home_branches = Hero.Home_roses (N:=float) /\
     Forall (fun e =>
               let s := Hero.stem_transition e in
               let c := Hero.rose_center (Hero.branch_rose e) in
               Hero.stem_to e = Hero.rose_translate e /\
               (delay s < delay c)%js /\
               (delay c < snd (window s))%js /\
               (snd (window c) < snd (window s))%js)
            (Hero.Home_branches (N:=float))).
Proof.
  cbn zeta.
  split; [reflexivity |]. split; [reflexivity |].
  split; [unfold window; cbn; f_equal; lra |].
  split; [reflexivity |].
  split; [unfold window; cbn; lra |].
  split; [unfold window; cbn; lra |].
  intros T. split; [reflexivity |]. split; [reflexivity |].
  repeat apply Forall_cons; try apply Forall_nil.
  all: cbn zeta; split; [reflexivity | repeat split; vm_compute; reflexivity].
Qed.

(** X12.  The vein of a leaf follows its blade: for any leaf, the blade
    unfolds over the window from [d] to [d + 0.4] and the vein is drawn over
    the window from [d + 0.1] to [d + 0.4], so the vein starts 0.1 s after
    the blade and both are complete at the same moment.  In exact arithmetic
    for every leaf; as doubles for the six leaves of the page, where the
    two sums give the very same double. *)
Theorem leaf_vein_follows_blade (l : Hero.LeafSpec (N:=R)) :
  let d := Hero.leaf_d l in
  window (Hero.leaf_blade (Hero.leaf l)) = (d, d + 0.4)%R /\
  window (Hero.leaf_vein (Hero.leaf l)) = (d + 0.1, d + 0.4)%R /\
  List.length (Hero.Home_leaves (N:=float)) = 6%nat /\
  Forall (fun e =>
            (delay (Hero.leaf_blade e) < delay (Hero.leaf_vein e))%js /\
            snd (window (Hero.leaf_vein e)) = snd (window (Hero.leaf_blade e)))
         (Hero.Home_leaves (N:=float)).
Proof.
  cbn zeta.
  split; [unfold window; cbn; f_equal |].
  split; [unfold window; cbn; f_equal; lra |].
  split; [reflexivity |].
  repeat apply Forall_cons; try apply Forall_nil.
  all: split; vm_compute; reflexivity.
Qed.

(** ** The programme of the day *)

Section Programme.
Import Page.

Lemma map_from_length {A B : Type} (f : A -> nat -> B) (xs : list A) :
  forall k, List.length (map_from f k xs) = List.length xs.
Proof.
  induction xs as [|x xs IH]; intros k; cbn; [reflexivity | rewrite IH; reflexivity].
Qed.

Lemma map_from_nth {A B : Type} (f : A -> nat -> B) (xs : list A) :
  forall k i, nth_error (map_from f k xs) i
              = option_map (fun x => f x (k + i)%nat) (nth_error xs i).
Proof.
  induction xs as [|x xs IH]; intros k [|i]; cbn; try reflexivity.
  - rewrite Nat.add_0_r. reflexivity.
  - rewrite IH. replace (S k + i)%nat with (k + S i)%nat by lia. reflexivity.
Qed.

(** Rows [k, k + 1, ...] of an array of [n] items: all but the one with
    index [n - 1] carry a connector. *)
Lemma connectors_from (arr xs : list TimelineItem) :
  forall k, (k + List.length xs = List.length arr)%nat ->
    List.length
      (List.filter row_connector (map_from (fun x i => timeline_row x i arr) k xs))
    = Nat.pred (List.length xs).
Proof.
  induction xs as [|x xs IH]; intros k Hk; [reflexivity |].
  cbn [map_from List.filter timeline_row row_connector List.length] in *.
  destruct xs as [|y ys].
  - cbn [List.length] in Hk.
    replace (Z.of_nat k <? Z.of_nat (List.length arr) - 1)%Z with false
      by (symmetry; apply Z.ltb_ge; lia).
    reflexivity.
  - specialize (IH (S k) ltac:(cbn [List.length] in *; lia)).
    cbn [List.length] in Hk.
    replace (Z.of_nat k <? Z.of_nat (List.length arr) - 1)%Z with true
      by (symmetry; apply Z.ltb_lt; lia).
    cbn [List.length]. rewrite IH. reflexivity.
Qed.

End Programme.

(** X13.  The programme draws one row per item and one connecting line
    between each two consecutive rows: for any list of items there are as
    many rows as items, in the same order; the row at index [i] has a line
    to the next row exactly when [i + 1] is still an index of the list, so
    the last row has none, there are [length - 1] lines in all, and none
    for an empty or one-item list; a row shows a description exactly when
    the item's [desc] is not the empty string. *)
Theorem programme_rows (items : list Page.TimelineItem)
    (i : nat) (item : Page.TimelineItem) :
  nth_error items i = Some item ->
  List.length (Page.Timeline items) = List.length items /\
  List.length (List.filter Page.row_connector (Page.Timeline items))
    = Nat.pred (List.length items) /\
  (exists row,
     nth_error (Page.Timeline items) i = Some row /\
     Page.row_time row = Page.time item /\
     Page.row_title row = Page.title item /\
     Page.row_connector row = (S i <? List.length items)%nat /\
     (Page.row_desc row = None <-> Page.desc item = EmptyString) /\
     (forall s, Page.row_desc row = Some s -> s = Page.desc item)) /\
  Page.Timeline [] = [] /\
  List.filter Page.row_connector (Page.Timeline [item]) = [].
Proof.
  intros Hi.
  unfold Page.Timeline, Page.Array_map.
  split; [apply map_from_length |].
  split; [apply connectors_from; reflexivity |].
  split; [| split; reflexivity].
  exists (Page.timeline_row item i items).
  split; [rewrite map_from_nth, Hi; reflexivity |].
  split; [reflexivity |]. split; [reflexivity |].
  split.
  - cbn [Page.row_connector Page.timeline_row].
    destruct (Nat.ltb_spec (S i) (List.length items)) as [H | H].
    + apply Z.ltb_lt. lia.
    + apply Z.ltb_ge. lia.
  - cbn [Page.row_desc Page.timeline_row].
    destruct (Page.desc item) as [|a s']; split.
    + split; reflexivity.
    + intros s Hs. discriminate Hs.
    + split; intros H; discriminate H.
    + intros s Hs. injection Hs as <-. reflexivity.
Qed.

Lemma programme_rows_witness :
  nth_error Page.programme 5
    = Some {| Page.time := "00:00"; Page.title := "Tortul miresei";
              Page.desc := EmptyString |} /\
  List.length (Page.Timeline Page.programme) = 6%nat /\
  List.length (List.filter Page.row_connector (Page.Timeline Page.programme)) = 5%nat.
Proof.
  assert (H : nth_error Page.programme 5
              = Some {| Page.time := "00:00"; Page.title := "Tortul miresei";
                        Page.desc := EmptyString |}) by reflexivity.
  destruct (programme_rows Page.programme 5 _ H) as (H1 & H2 & _).
  split; [exact H | split; [exact H1 | exact H2]].
Defined.

(** ** The petals of the small icon *)

(** X14.  Outer petals of the small icon are farther out and larger: for
    indices [i < j] below 12, petal [j] lies strictly farther from the
    centre of the icon than petal [i] and is scaled strictly larger; the
    distance stays below 13.3 and the applied scale [s * 0.45] between 0.18
    and 0.4275.  In exact arithmetic and for the doubles the engine
    computes, stated for each of the two copies of the icon, which agree at
    both indices. *)
Theorem icon_petals_grow_outward (i j : nat) :
  (i < j)%nat -> (j < 12)%nat ->
  ( (Hero.icon_d (N:=R) i < Hero.icon_d j < 13.3)%R /\
    (Hero.icon_s (N:=R) i < Hero.icon_s j)%R /\
    (0.18 <= Hero.icon_s (N:=R) i * 0.45)%R /\
    (Hero.icon_s (N:=R) j * 0.45 <= 0.4275)%R /\
    (Page.icon_d (N:=R) i < Page.icon_d j < 13.3)%R /\
    (Page.icon_s (N:=R) i < Page.icon_s j)%R /\
    (0.18 <= Page.icon_s (N:=R) i * 0.45)%R /\
    (Page.icon_s (N:=R) j * 0.45 <= 0.4275)%R /\
    Page.icon_d (N:=R) i = Hero.icon_d i /\
    Page.icon_d (N:=R) j = Hero.icon_d j /\
    Page.icon_s (N:=R) i = Hero.icon_s i /\
    Page.icon_s (N:=R) j = Hero.icon_s j ) /\
  ( (Hero.icon_d (N:=float) i <? Hero.icon_d j)%float = true /\
    (Hero.icon_d (N:=float) j <? 13.3)%float = true /\
    (Hero.icon_s (N:=float) i <? Hero.icon_s j)%float = true /\
    (0.18 <=? Hero.icon_s (N:=float) i * 0.45)%float = true /\
    (Hero.icon_s (N:=float) j * 0.45 <=? 0.4275)%float = true /\
    (Page.icon_d (N:=float) i <? Page.icon_d j)%float = true /\
    (Page.icon_d (N:=float) j <? 13.3)%float = true /\
    (Page.icon_s (N:=float) i <? Page.icon_s j)%float = true /\
    (0.18 <=? Page.icon_s (N:=float) i * 0.45)%float = true /\
    (Page.icon_s (N:=float) j * 0.45 <=? 0.4275)%float = true /\
    Page.icon_d (N:=float) i = Hero.icon_d i /\
    Page.icon_d (N:=float) j = Hero.icon_d j /\
    Page.icon_s (N:=float) i = Hero.icon_s i /\
    Page.icon_s (N:=float) j = Hero.icon_s j ).
Proof.
  intros Hij Hj.
  assert (Hi : (i < 12)%nat) by lia.
  split.
  - pose proof (sqrt_INR_increasing i j Hij) as Hs.
    pose proof (sqrt_INR_bound j 11 3.32 ltac:(lia) ltac:(lra) ltac:(cbn; lra)) as Hb.
    pose proof (pos_INR i) as H0.
    assert (Hlt : (INR i < INR j)%R) by (apply lt_INR, Hij).
    assert (Hle : (INR j <= 11)%R).
    { replace 11%R with (INR 11) by (cbn; lra). apply le_INR. lia. }
    unfold Hero.icon_d, Hero.icon_s, Page.icon_d, Page.icon_s.
    cbn [Math_sqrt nmul nadd ndiv Exact lit of_nat].
    repeat split; lra.
  - repeat split.
    all: first
      [ reflexivity
      | apply (increasing_below_sound (Hero.icon_d (N:=float)) 12);
          [vm_compute; reflexivity | exact Hij | exact Hj]
      | apply (increasing_below_sound (Hero.icon_s (N:=float)) 12);
          [vm_compute; reflexivity | exact Hij | exact Hj]
      | apply (increasing_below_sound (Page.icon_d (N:=float)) 12);
          [vm_compute; reflexivity | exact Hij | exact Hj]
      | apply (increasing_below_sound (Page.icon_s (N:=float)) 12);
          [vm_compute; reflexivity | exact Hij | exact Hj]
      | solve [clear Hij Hi; run_below j Hj]
      | solve [clear Hij Hj; run_below i Hi] ].
Qed.

Lemma icon_petals_grow_outward_witness :
  (10 < 11)%nat /\ (11 < 12)%nat /\
  (Hero.icon_d (N:=R) 10 < Hero.icon_d 11 < 13.3)%R /\
  (Page.icon_d (N:=R) 10 < Page.icon_d 11 < 13.3)%R /\
  (Hero.icon_s (N:=float) 10 <? Hero.icon_s 11)%float = true /\
  (Page.icon_s (N:=float) 10 <? Page.icon_s 11)%float = true.
Proof.
  assert (H1 : (10 < 11)%nat) by lia.
  assert (H2 : (11 < 12)%nat) by lia.
  destruct (icon_petals_grow_outward 10 11 H1 H2)
    as [(HR & _ & _ & _ & HR' & _)
        (_ & _ & HF & _ & _ & _ & _ & HF' & _)].
  split; [exact H1 | split; [exact H2 |]].
  split; [exact HR | split; [exact HR' | split; [exact HF | exact HF']]].
Defined.
